(** * Lumi model server (scripts/06_serve.py): a shallow embedding

    The script serves a pretrained language model through an interactive
    console and through an HTTP API.  This development embeds

    - Python strings and the three string operations the script relies on
      (slicing from an index, [strip], [lower]);
    - [ModelServer.format_prompt] and [ModelServer.generate];
    - the request model [GenerationRequest] with its defaults;
    - the [/generate] endpoint of [create_app] and [interactive_mode];
    - the cooperative scheduling of the endpoint coroutines.

    The model and the tokenizer are external objects (transformers, torch):
    they appear as records of functions, and every call into them is a
    node of a program tree, so that the calls a run performs can be read
    off its log. *)

From Stdlib Require Import Ascii String.
From Stdlib Require Import Bool NArith ZArith Lia Floats.
From Stdlib Require Import List.
Import ListNotations.

Set Implicit Arguments.
Set Warnings "-inexact-float".
Local Open Scope list_scope.

(* ================================================================== *)
(** ** Python strings *)
(* ================================================================== *)

(** A Python [str] is a sequence of Unicode code points; [len] counts code
    points and slicing indexes them. *)
Module PyStr.

Definition char := N.
Definition str := list char.

(** An ASCII literal of the source, as code points. *)
Definition lit (s : string) : str :=
  List.map N_of_ascii (list_ascii_of_string s).

(** The escape [\n]. *)
Definition nl : str := [10%N].

Fixpoint eqb (s t : str) : bool :=
  match s, t with
  | [], [] => true
  | a :: s', b :: t' => N.eqb a b && eqb s' t'
  | _, _ => false
  end.

(** [s[n:]] for [n >= 0]: past the end it is the empty string. *)
Definition slice_from (n : nat) (s : str) : str := List.skipn n s.

(** [str.isspace] on one code point (CPython's [_PyUnicode_IsWhitespace]). *)
Definition isspace (c : char) : bool :=
  ((9 <=? c) && (c <=? 13) || (28 <=? c) && (c <=? 32)
   || (c =? 133) || (c =? 160) || (c =? 5760)
   || (8192 <=? c) && (c <=? 8202)
   || (c =? 8232) || (c =? 8233) || (c =? 8239) || (c =? 8287)
   || (c =? 12288))%N.

Fixpoint lstrip (s : str) : str :=
  match s with
  | [] => []
  | c :: r => if isspace c then lstrip r else s
  end.

Definition rstrip (s : str) : str := List.rev (lstrip (List.rev s)).

(** [s.strip()] without argument. *)
Definition strip (s : str) : str := rstrip (lstrip s).

Definition is_ascii_upper (c : char) : bool := ((65 <=? c) && (c <=? 90))%N.
Definition is_ascii (c : char) : bool := (c <? 128)%N.

Section Lower.
  (** Lower-casing of a code point outside ASCII comes from the Unicode
      database and may depend on the neighbouring characters (final
      sigma); it is a parameter, given the characters before and after. *)
Variable unicode_lower : str -> str -> char -> str.

Definition lower_char (before after : str) (c : char) : str :=
    if is_ascii c
    then [if is_ascii_upper c then (c + 32)%N else c]
    else unicode_lower before after c.

Fixpoint lower_from (before s : str) : str :=
    match s with
    | [] => []
    | c :: r => lower_char before r c ++ lower_from (before ++ [c]) r
    end.

  (** [s.lower()]. *)
Definition lower (s : str) : str := lower_from [] s.
End Lower.

(** [x in l] for a list of strings. *)
Definition mem (x : str) (l : list str) : bool := List.existsb (eqb x) l.

(** [t] is a leading substring of [s]. *)
Fixpoint startswith (s t : str) {struct t} : bool :=
  match t, s with
  | [], _ => true
  | b :: t', a :: s' => N.eqb a b && startswith s' t'
  | _ :: _, [] => false
  end.

End PyStr.
Import PyStr.

(* ================================================================== *)
(** ** ModelServer.format_prompt *)
(* ================================================================== *)

(** The [template] argument is whatever the caller passes: a string, or
    [None] when an API payload sets the field to null. *)
Definition format_prompt (prompt : str) (template : option str) : str :=
  match template with
  | Some t =>
      if eqb t (lit "chatml") then
        lit "<|im_start|>user" ++ nl ++ prompt ++ nl ++ lit "<|im_end|>" ++ nl
          ++ lit "<|im_start|>assistant" ++ nl
      else if eqb t (lit "chat") then
        lit "Human: " ++ prompt ++ nl ++ nl ++ lit "Assistant: "
      else if eqb t (lit "instruct") then
        lit "### Instruction:" ++ nl ++ prompt ++ nl ++ nl ++ lit "### Response:" ++ nl
      else prompt
  | None => prompt
  end.

(* ================================================================== *)
(** ** GenerationRequest *)
(* ================================================================== *)

(** A field of the JSON payload: left out, given as null, or given. *)
Inductive field (A : Type) : Type :=
| Absent
| Null
| Given (a : A).
Arguments Absent {A}.
Arguments Null {A}.

(** A pydantic field [Optional[A] = d]: the default applies when the field
    is left out; an explicit null is kept as [None]. *)
Definition with_default {A : Type} (d : A) (f : field A) : option A :=
  match f with
  | Absent => Some d
  | Null => None
  | Given a => Some a
  end.

(** The body of a POST /generate, after JSON parsing. *)
Module Payload.
Record t := {
  prompt : str;
  max_new_tokens : field Z;
  temperature : field float;
  top_p : field float;
  repetition_penalty : field float;
  do_sample : field bool;
  template : field str
}.

Definition prompt_only (s : str) : t :=
  {| prompt := s;
     max_new_tokens := Absent;
     temperature := Absent;
     top_p := Absent;
     repetition_penalty := Absent;
     do_sample := Absent;
     template := Absent |}.
End Payload.

Module GenerationRequest.
Record t := {
  prompt : str;
  max_new_tokens : option Z;
  temperature : option float;
  top_p : option float;
  repetition_penalty : option float;
  do_sample : option bool;
  template : option str
}.

(** Construction of the request from a payload: the class attributes of
    [GenerationRequest] are the defaults. *)
Definition make (p : Payload.t) : t :=
  {| prompt := Payload.prompt p;
     max_new_tokens := with_default 100%Z (Payload.max_new_tokens p);
     temperature := with_default 0.7%float (Payload.temperature p);
     top_p := with_default 0.9%float (Payload.top_p p);
     repetition_penalty := with_default 1.1%float (Payload.repetition_penalty p);
     do_sample := with_default true (Payload.do_sample p);
     template := with_default (lit "chatml") (Payload.template p) |}.
End GenerationRequest.

(** The [generation_config] echoed by the endpoint: five keys, without
    [do_sample]. *)
Module Echo.
Record t := {
  max_new_tokens : option Z;
  temperature : option float;
  top_p : option float;
  repetition_penalty : option float;
  template : option str
}.
End Echo.

Module GenerationResponse.
Record t := {
  response : str;
  prompt : str;
  generation_config : Echo.t
}.
End GenerationResponse.

(* ================================================================== *)
(** ** Exceptions, tokenizer, model *)
(* ================================================================== *)

(** What a call may raise: an instance of [Exception] with its [str(e)],
    or [KeyboardInterrupt], which [except Exception] does not catch. *)
Inductive exn : Type :=
| Exception (msg : str)
| KeyboardInterrupt.

Definition is_Exception (e : exn) : bool :=
  match e with Exception _ => true | KeyboardInterrupt => false end.

Definition is_KeyboardInterrupt (e : exn) : bool :=
  match e with Exception _ => false | KeyboardInterrupt => true end.

(** [str(e)]. *)
Definition exn_str (e : exn) : str :=
  match e with Exception msg => msg | KeyboardInterrupt => [] end.

(** What indexing an empty batch raises. *)
Definition IndexError : exn :=
  Exception (lit "index 0 is out of bounds for dimension 0 with size 0").

Inductive result (A : Type) : Type :=
| Ok (a : A)
| Raise (e : exn).
Arguments Raise {A} e.

Definition Device := str.

(** The dict built in [ModelServer.generate] and splatted into
    [model.generate]. *)
Module GenerationConfig.
Record t := {
  max_new_tokens : option Z;
  temperature : option float;
  top_p : option float;
  repetition_penalty : option float;
  do_sample : option bool;
  pad_token_id : option Z;
  eos_token_id : option Z;
  early_stopping : bool;
  no_repeat_ngram_size : Z
}.
End GenerationConfig.

(** What the tokenizer returns for the one prompt: the row of token ids
    and its attention mask, and the device the tensors live on. *)
Module BatchEncoding.
Record t := {
  input_ids : list Z;
  attention_mask : list Z;
  on_device : option Device
}.

(** [inputs.to(device)]. *)
Definition to (e : t) (d : Device) : t :=
  {| input_ids := input_ids e;
     attention_mask := attention_mask e;
     on_device := Some d |}.
End BatchEncoding.

(** The loaded tokenizer.  [call text truncation max_length] is
    [tokenizer(text, return_tensors="pt", truncation=.., max_length=..)];
    [decode ids skip_special_tokens] is [tokenizer.decode]. *)
Module Tokenizer.
Record t := {
  pad_token : option str;
  eos_token : option str;
  convert_tokens_to_ids : str -> option Z;
  call : str -> bool -> option nat -> result BatchEncoding.t;
  decode : list Z -> bool -> result str
}.

(** The id attributes are derived from the token attributes. *)
Definition token_id (tk : t) (tok : option str) : option Z :=
  match tok with
  | None => None
  | Some s => convert_tokens_to_ids tk s
  end.
Definition pad_token_id (tk : t) : option Z := token_id tk (pad_token tk).
Definition eos_token_id (tk : t) : option Z := token_id tk (eos_token tk).

(** [tokenizer.pad_token = v]. *)
Definition set_pad_token (tk : t) (v : option str) : t :=
  {| pad_token := v;
     eos_token := eos_token tk;
     convert_tokens_to_ids := convert_tokens_to_ids tk;
     call := call tk;
     decode := decode tk |}.

End Tokenizer.

(** What the tokenizer library does to an encoding under
    [truncation=True, max_length=n].  The library is not part of the
    sources; this states which ids it keeps.  An encoding is the ids of
    the text, between the special ids the tokenizer puts before and after
    them; truncation removes ids of the text only, at the end of the text
    or at its start according to the tokenizer's [truncation_side], until
    the whole encoding has [n] ids. *)
Module Truncation.
Inductive Side : Type :=
| side_right
| side_left.

Record Layout := {
  before : list Z;
  content : list Z;
  after : list Z;
  side : Side
}.

(** The encoding without truncation. *)
Definition full (L : Layout) : list Z := before L ++ content L ++ after L.

(** The number of ids of the text that fit. *)
Definition room (n : nat) (L : Layout) : nat :=
  n - List.length (before L) - List.length (after L).

Definition kept (n : nat) (L : Layout) : list Z :=
  match side L with
  | side_right => List.firstn (room n L) (content L)
  | side_left => List.skipn (List.length (content L) - room n L) (content L)
  end.

Definition dropped (n : nat) (L : Layout) : list Z :=
  match side L with
  | side_right => List.skipn (room n L) (content L)
  | side_left => List.firstn (List.length (content L) - room n L) (content L)
  end.

(** The encoding with truncation. *)
Definition truncated (n : nat) (L : Layout) : list Z :=
  before L ++ kept n L ++ after L.

(** The ids of the text, as the kept and the dropped ones. *)
Definition rejoined (n : nat) (L : Layout) : list Z :=
  match side L with
  | side_right => kept n L ++ dropped n L
  | side_left => dropped n L ++ kept n L
  end.
End Truncation.

(** The loaded model.  [Ext] is the state outside the server that
    generation reads and changes (the random generator used for sampling,
    device memory).  [generate x input_ids attention_mask config] returns
    the batch of output rows. *)
Module Model.
Record t (Ext : Type) := {
  device : Device;
  numel : Z;
  generate : Ext -> list Z -> list Z -> GenerationConfig.t
             -> result (list (list Z)) * Ext
}.
End Model.

Module ModelServer.
Record t (Ext : Type) := {
  model : Model.t Ext;
  tokenizer : Tokenizer.t;
  device : Device
}.

(** [ModelServer.__init__], from the two loaded objects. *)
Definition init {Ext : Type} (loaded_model : Model.t Ext)
    (loaded_tokenizer : Tokenizer.t) : t Ext :=
  let tk :=
    match Tokenizer.pad_token loaded_tokenizer with
    | None =>
        Tokenizer.set_pad_token loaded_tokenizer (Tokenizer.eos_token loaded_tokenizer)
    | Some _ => loaded_tokenizer
    end in
  {| model := loaded_model;
     tokenizer := tk;
     device := Model.device loaded_model |}.
End ModelServer.

(* ================================================================== *)
(** ** Programs *)
(* ================================================================== *)

(** What a run leaves in its log.  [EvEnter] and [EvExit] are ghost marks
    around the body of [ModelServer.generate]; the other events are the
    calls into the tokenizer and the model, [input] and [print]. *)
Inductive event : Type :=
| EvEnter (prompt : str) (template : option str)
| EvExit
| EvTokenize (text : str) (truncation : bool) (max_length : option nat)
| EvModelGenerate (input_ids attention_mask : list Z) (config : GenerationConfig.t)
| EvDecode (ids : list Z) (skip_special_tokens : bool)
| EvInput (prompt : str)
| EvPrint (text : str).

Section Programs.
Variable Ext : Type.

(** A program is the tree of its calls: [Call] asks the outside for a
    value (which may be an exception), [Emit] only logs, [Await] is a
    suspension point of a coroutine. *)
Inductive prog (A : Type) : Type :=
| Ret (a : A)
| Throw (e : exn)
| Call (X : Type) (ev : event) (f : Ext -> result X * Ext) (k : result X -> prog A)
| Emit (ev : event) (k : prog A)
| Await (k : prog A).
Arguments Ret {A} a.
Arguments Throw {A} e.
Arguments Call {A X} ev f k.
Arguments Emit {A} ev k.
Arguments Await {A} k.

Fixpoint bind {A B : Type} (p : prog A) (f : A -> prog B) : prog B :=
  match p with
  | Ret a => f a
  | Throw e => Throw e
  | Call ev g k => Call ev g (fun r => bind (k r) f)
  | Emit ev k => Emit ev (bind k f)
  | Await k => Await (bind k f)
  end.

(** [try: p except <class> as e: h e], for the classes [catches] accepts. *)
Fixpoint try_except {A : Type} (p : prog A) (catches : exn -> bool)
    (h : exn -> prog A) : prog A :=
  match p with
  | Ret a => Ret a
  | Throw e => if catches e then h e else Throw e
  | Call ev g k => Call ev g (fun r => try_except (k r) catches h)
  | Emit ev k => Emit ev (try_except k catches h)
  | Await k => Await (try_except k catches h)
  end.

(** The ghost mark [EvExit] on every way out of [p]. *)
Fixpoint leaving {A : Type} (p : prog A) : prog A :=
  match p with
  | Ret a => Emit EvExit (Ret a)
  | Throw e => Emit EvExit (Throw e)
  | Call ev g k => Call ev g (fun r => leaving (k r))
  | Emit ev k => Emit ev (leaving k)
  | Await k => Await (leaving k)
  end.

Definition lift {X : Type} (r : result X) : prog X :=
  match r with
  | Ok x => Ret x
  | Raise e => Throw e
  end.

(** A call into a library that returns or raises. *)
Definition call {X : Type} (ev : event) (f : Ext -> result X * Ext) : prog X :=
  Call ev f lift.

(** A call that does not touch the outside state. *)
Definition pure {X : Type} (r : result X) : Ext -> result X * Ext :=
  fun x => (r, x).

Definition print (s : str) : prog unit := Emit (EvPrint (s ++ nl)) (Ret tt).
Definition print_end (s e : str) : prog unit := Emit (EvPrint (s ++ e)) (Ret tt).

(** [outputs[0]]. *)
Definition index0 {X : Type} (l : list X) : prog X :=
  match l with
  | x :: _ => Ret x
  | [] => Throw IndexError
  end.

Record world := {
  ext : Ext;
  log : list event
}.

Definition logged (w : world) (ev : event) (x : Ext) : world :=
  {| ext := x; log := log w ++ [ev] |}.

(** Sequential execution. *)
Fixpoint run {A : Type} (p : prog A) (w : world) : result A * world :=
  match p with
  | Ret a => (Ok a, w)
  | Throw e => (Raise e, w)
  | Call ev f k => let rx := f (ext w) in run (k (fst rx)) (logged w ev (snd rx))
  | Emit ev k => run k (logged w ev (ext w))
  | Await k => run k w
  end.

End Programs.

Arguments Ret {Ext A} a.
Arguments Throw {Ext A} e.
Arguments Call {Ext A X} ev f k.
Arguments Emit {Ext A} ev k.
Arguments Await {Ext A} k.
Arguments pure {Ext X} r.
Arguments print {Ext} s.
Arguments print_end {Ext} s e.
Arguments index0 {Ext X} l.
Arguments lift {Ext X} r.

Declare Scope prog_scope.
Delimit Scope prog_scope with prog.
Notation "x <- c ;; k" := (bind c (fun x => k))
  (at level 61, c at next level, right associativity) : prog_scope.
Notation "c ;;; k" := (bind c (fun _ => k))
  (at level 61, right associativity) : prog_scope.

(* ================================================================== *)
(** ** ModelServer.generate, the endpoint and the console *)
(* ================================================================== *)

(** The parsed command line (argparse namespace), as far as the console
    reads it. *)
Module Args.
Record t := {
  model_path : str;
  template : str;
  temperature : float;
  top_p : float;
  max_new_tokens : Z;
  repetition_penalty : float;
  do_sample : bool
}.
End Args.

(** One call of [input()]: a line (without its newline), end of input, or
    an interrupt from the keyboard. *)
Inductive keyboard : Type :=
| Line (s : str)
| EOFError
| Interrupt.

(** [raise HTTPException(status_code=.., detail=..)]. *)
Record HTTPException := {
  status_code : Z;
  detail : str
}.

Section Server.
Variable Ext : Type.
Variable unicode_lower : str -> str -> char -> str.
(** [str(x)] of a float inside an f-string. *)
Variable float_str : float -> str.

Local Open Scope prog_scope.

Definition generation_config (self : ModelServer.t Ext)
    (max_new_tokens : option Z) (temperature top_p repetition_penalty : option float)
    (do_sample : option bool) : GenerationConfig.t :=
  {| GenerationConfig.max_new_tokens := max_new_tokens;
     GenerationConfig.temperature := temperature;
     GenerationConfig.top_p := top_p;
     GenerationConfig.repetition_penalty := repetition_penalty;
     GenerationConfig.do_sample := do_sample;
     GenerationConfig.pad_token_id :=
       Tokenizer.eos_token_id (ModelServer.tokenizer self);
     GenerationConfig.eos_token_id :=
       Tokenizer.eos_token_id (ModelServer.tokenizer self);
     GenerationConfig.early_stopping := true;
     GenerationConfig.no_repeat_ngram_size := 3 |}.

(** The body of [ModelServer.generate], between the ghost marks. *)
Definition generate_body (self : ModelServer.t Ext) (prompt : str)
    (max_new_tokens : option Z) (temperature top_p repetition_penalty : option float)
    (do_sample : option bool) (template : option str) : prog Ext (str * str) :=
  let formatted_prompt := format_prompt prompt template in
  inputs <- call (EvTokenize formatted_prompt true (Some 2048%nat))
              (pure (Tokenizer.call (ModelServer.tokenizer self)
                       formatted_prompt true (Some 2048%nat))) ;;
  let inputs := BatchEncoding.to inputs (ModelServer.device self) in
  let config :=
    generation_config self max_new_tokens temperature top_p repetition_penalty
      do_sample in
  outputs <- call (EvModelGenerate (BatchEncoding.input_ids inputs)
                     (BatchEncoding.attention_mask inputs) config)
               (fun x => Model.generate (ModelServer.model self) x
                           (BatchEncoding.input_ids inputs)
                           (BatchEncoding.attention_mask inputs) config) ;;
  first <- index0 outputs ;;
  full_response <- call (EvDecode first true)
                     (pure (Tokenizer.decode (ModelServer.tokenizer self) first true)) ;;
  let generated_response :=
    strip (slice_from (List.length formatted_prompt) full_response) in
  Ret (formatted_prompt, generated_response).

Definition generate (self : ModelServer.t Ext) (prompt : str)
    (max_new_tokens : option Z) (temperature top_p repetition_penalty : option float)
    (do_sample : option bool) (template : option str) : prog Ext (str * str) :=
  Emit (EvEnter prompt template)
    (leaving (generate_body self prompt max_new_tokens temperature top_p
                repetition_penalty do_sample template)).

(** The texts the two front ends show. *)
Definition goodbye : str := lit "Au revoir! " ++ [128075%N].
Definition ask : str := nl ++ [128100%N] ++ lit " Vous: ".
Definition lumi_says : str := [129302%N] ++ lit " Lumi: ".
Definition generation_error : str :=
  [10060%N] ++ lit " Erreur lors de la g" ++ [233%N] ++ lit "n" ++ [233%N]
    ++ lit "ration: ".
Definition api_error : str :=
  lit "Erreur de g" ++ [233%N] ++ lit "n" ++ [233%N] ++ lit "ration: ".

(** The coroutine of POST /generate in [create_app].  It returns the
    response ([inl]) or raises an [HTTPException] ([inr]); an exception
    that [except Exception] does not catch goes through. *)
Definition api_generate (model_server : ModelServer.t Ext)
    (request : GenerationRequest.t)
    : prog Ext (GenerationResponse.t + HTTPException) :=
  try_except
    (fr <- generate model_server
             (GenerationRequest.prompt request)
             (GenerationRequest.max_new_tokens request)
             (GenerationRequest.temperature request)
             (GenerationRequest.top_p request)
             (GenerationRequest.repetition_penalty request)
             (GenerationRequest.do_sample request)
             (GenerationRequest.template request) ;;
     Ret (inl
       {| GenerationResponse.response := snd fr;
          GenerationResponse.prompt := GenerationRequest.prompt request;
          GenerationResponse.generation_config :=
            {| Echo.max_new_tokens := GenerationRequest.max_new_tokens request;
               Echo.temperature := GenerationRequest.temperature request;
               Echo.top_p := GenerationRequest.top_p request;
               Echo.repetition_penalty := GenerationRequest.repetition_penalty request;
               Echo.template := GenerationRequest.template request |} |}))
    is_Exception
    (fun e =>
       Ret (inr {| status_code := 500; detail := api_error ++ exn_str e |})).

(** The two other coroutines of [create_app] only read the server. *)
Definition api_root (model_server : ModelServer.t Ext) : prog Ext (Device * Z) :=
  Ret (ModelServer.device model_server,
       Model.numel (ModelServer.model model_server)).

Definition api_health (model_server : ModelServer.t Ext) : prog Ext Device :=
  Ret (ModelServer.device model_server).

Definition exit_words : list str := [lit "exit"; lit "quit"; lit "q"].

(** The [while True] loop of [interactive_mode], over what the keyboard
    delivers; a keyboard that delivers nothing more is at end of input. *)
Fixpoint console_loop (model_server : ModelServer.t Ext) (args : Args.t)
    (stdin : list keyboard) : prog Ext unit :=
  Emit (EvInput ask)
    match stdin with
    | [] => print (nl ++ nl ++ goodbye)
    | EOFError :: _ => print (nl ++ nl ++ goodbye)
    | Interrupt :: _ => print (nl ++ nl ++ goodbye)
    | Line s :: rest =>
        let user_input := strip s in
        if mem (lower unicode_lower user_input) exit_words then print goodbye
        else
          match user_input with
          | [] => console_loop model_server args rest
          | _ :: _ =>
              print_end lumi_says [] ;;;
              try_except
                (fr <- generate model_server user_input
                         (Some (Args.max_new_tokens args))
                         (Some (Args.temperature args))
                         (Some (Args.top_p args))
                         (Some (Args.repetition_penalty args))
                         (Some (Args.do_sample args))
                         (Some (Args.template args)) ;;
                 print (snd fr))
                is_Exception
                (fun e => print (generation_error ++ exn_str e)) ;;;
              console_loop model_server args rest
          end
    end.

Definition banner (args : Args.t) : prog Ext unit :=
  print ([129302%N] ++ lit " Mode interactif Lumi") ;;;
  print (List.repeat 61%N 50) ;;;
  print (lit "Mod" ++ [232%N] ++ lit "le: " ++ Args.model_path args) ;;;
  print (lit "Template: " ++ Args.template args) ;;;
  print (lit "Param" ++ [232%N] ++ lit "tres: temp=" ++ float_str (Args.temperature args)
           ++ lit ", top_p=" ++ float_str (Args.top_p args)) ;;;
  print (lit "Tapez 'exit', 'quit' ou Ctrl+C pour quitter") ;;;
  print (List.repeat 61%N 50).

Definition interactive_mode (model_server : ModelServer.t Ext) (args : Args.t)
    (stdin : list keyboard) : prog Ext unit :=
  banner args ;;;
  try_except (console_loop model_server args stdin)
    is_KeyboardInterrupt
    (fun _ => print (nl ++ nl ++ goodbye)).

(** The events of a log that are calls into the engine. *)
Definition is_engine_event (ev : event) : bool :=
  match ev with
  | EvEnter _ _ | EvExit | EvTokenize _ _ _ | EvModelGenerate _ _ _ | EvDecode _ _ => true
  | EvInput _ | EvPrint _ => false
  end.

Definition engine_events (l : list event) : list event :=
  List.filter is_engine_event l.

End Server.

(* ================================================================== *)
(** ** The event loop *)
(* ================================================================== *)

(** In API mode uvicorn runs the application on one event loop, in one
    thread.  Every endpoint of [create_app] is declared [async def], so
    each request is a coroutine on that loop: it runs until it finishes or
    reaches an [await], and only then may another coroutine run.  In
    interactive mode the process runs [interactive_mode] alone. *)

Inductive Mode : Type :=
| interactive
| api.

(** The effect of an event on one caller's position, outside ([false]) or
    inside ([true]) [ModelServer.generate]; [None] when the event cannot
    occur at that position. *)
Definition mark_step (inside : bool) (ev : event) : option bool :=
  match ev with
  | EvEnter _ _ => if inside then None else Some true
  | EvExit => if inside then Some false else None
  | EvTokenize _ _ _ | EvModelGenerate _ _ _ | EvDecode _ _ =>
      if inside then Some true else None
  | EvInput _ | EvPrint _ => Some inside
  end.

Definition holder_of (i : nat) (inside : bool) : option nat :=
  if inside then Some i else None.

(** One event of task [i] seen by an observer who tracks which task, if
    any, is inside [generate]: [None] when the event overlaps the call of
    another task. *)
Definition holder_step (cur : option nat) (e : nat * event) : option (option nat) :=
  match cur with
  | None => option_map (holder_of (fst e)) (mark_step false (snd e))
  | Some j =>
      if Nat.eqb (fst e) j
      then option_map (holder_of j) (mark_step true (snd e))
      else if is_engine_event (snd e) then None else Some cur
  end.

Fixpoint holder_from (cur : option nat) (l : list (nat * event)) : option (option nat) :=
  match l with
  | [] => Some cur
  | e :: l' =>
      match holder_step cur e with
      | Some c => holder_from c l'
      | None => None
      end
  end.

(** A log in which the calls of [generate] do not overlap. *)
Definition serialized (l : list (nat * event)) : bool :=
  match holder_from None l with
  | Some _ => true
  | None => false
  end.

(** The same, said on the log itself: once task [i] has entered
    [generate], no other task enters it or calls the tokenizer or the
    model before [i] has left. *)
Definition exclusive (l : list (nat * event)) : Prop :=
  forall l1 i p t l2 j ev l3,
    l = l1 ++ (i, EvEnter p t) :: l2 ++ (j, ev) :: l3 ->
    is_engine_event ev = true ->
    j <> i ->
    In (i, EvExit) l2.

Section EventLoop.
Variable Ext : Type.
Variable unicode_lower : str -> str -> char -> str.
Variable float_str : float -> str.

Definition task : Type := nat * prog Ext unit.

(** A coroutine whose value the loop drops. *)
Definition void {A : Type} (p : prog Ext A) : prog Ext unit :=
  bind p (fun _ => Ret tt).

Record loop := {
  running : option task;
  ready : list task;
  next_id : nat;
  loop_ext : Ext;
  loop_log : list (nat * event)
}.

(** A program that keeps the marks balanced from position [inside] on,
    calls the engine only inside, and has no suspension point inside. *)
Fixpoint safe {A : Type} (inside : bool) (p : prog Ext A) : Prop :=
  match p with
  | Ret _ | Throw _ => inside = false
  | Await k => inside = false /\ safe false k
  | Emit ev k =>
      match mark_step inside ev with
      | Some b => safe b k
      | None => False
      end
  | Call ev _ k =>
      match mark_step inside ev with
      | Some b => forall r, safe b (k r)
      | None => False
      end
  end.

(** A program made of calls into the engine only. *)
Fixpoint inner {A : Type} (p : prog Ext A) : Prop :=
  match p with
  | Ret _ | Throw _ => True
  | Call ev _ k => mark_step true ev = Some true /\ forall r, inner (k r)
  | Emit _ _ | Await _ => False
  end.

Definition finished {A : Type} (p : prog Ext A) : bool :=
  match p with
  | Ret _ | Throw _ => true
  | _ => false
  end.

Section Steps.
(** The coroutines the process may start. *)
Variable spawnable : prog Ext unit -> Prop.

Inductive loop_step : loop -> loop -> Prop :=
| step_arrive st p :
    spawnable p ->
    loop_step st
      {| running := running st;
         ready := ready st ++ [(next_id st, p)];
         next_id := S (next_id st);
         loop_ext := loop_ext st;
         loop_log := loop_log st |}
| step_resume st before t after :
    running st = None ->
    ready st = before ++ t :: after ->
    loop_step st
      {| running := Some t;
         ready := before ++ after;
         next_id := next_id st;
         loop_ext := loop_ext st;
         loop_log := loop_log st |}
| step_call st i X ev (f : Ext -> result X * Ext) k :
    running st = Some (i, Call ev f k) ->
    loop_step st
      {| running := Some (i, k (fst (f (loop_ext st))));
         ready := ready st;
         next_id := next_id st;
         loop_ext := snd (f (loop_ext st));
         loop_log := loop_log st ++ [(i, ev)] |}
| step_emit st i ev k :
    running st = Some (i, Emit ev k) ->
    loop_step st
      {| running := Some (i, k);
         ready := ready st;
         next_id := next_id st;
         loop_ext := loop_ext st;
         loop_log := loop_log st ++ [(i, ev)] |}
| step_await st i k :
    running st = Some (i, Await k) ->
    loop_step st
      {| running := None;
         ready := ready st ++ [(i, k)];
         next_id := next_id st;
         loop_ext := loop_ext st;
         loop_log := loop_log st |}
| step_finish st i p :
    running st = Some (i, p) ->
    finished p = true ->
    loop_step st
      {| running := None;
         ready := ready st;
         next_id := next_id st;
         loop_ext := loop_ext st;
         loop_log := loop_log st |}.

Inductive reachable (st0 : loop) : loop -> Prop :=
| reach_start : reachable st0 st0
| reach_step st st' : reachable st0 st -> loop_step st st' -> reachable st0 st'.

(** The loop as a function of the scheduler's choices; a choice that
    does not apply leaves the state as it is. *)
Inductive choice : Type :=
| Arrive (p : prog Ext unit)
| Resume (n : nat)
| Advance.

Definition drive1 (c : choice) (st : loop) : loop :=
  match c with
  | Arrive p =>
      {| running := running st;
         ready := ready st ++ [(next_id st, p)];
         next_id := S (next_id st);
         loop_ext := loop_ext st;
         loop_log := loop_log st |}
  | Resume n =>
      match running st, List.nth_error (ready st) n with
      | None, Some t =>
          {| running := Some t;
             ready := List.firstn n (ready st) ++ List.skipn (S n) (ready st);
             next_id := next_id st;
             loop_ext := loop_ext st;
             loop_log := loop_log st |}
      | _, _ => st
      end
  | Advance =>
      match running st with
      | Some (i, Call ev f k) =>
          {| running := Some (i, k (fst (f (loop_ext st))));
             ready := ready st;
             next_id := next_id st;
             loop_ext := snd (f (loop_ext st));
             loop_log := loop_log st ++ [(i, ev)] |}
      | Some (i, Emit ev k) =>
          {| running := Some (i, k);
             ready := ready st;
             next_id := next_id st;
             loop_ext := loop_ext st;
             loop_log := loop_log st ++ [(i, ev)] |}
      | Some (i, Await k) =>
          {| running := None;
             ready := ready st ++ [(i, k)];
             next_id := next_id st;
             loop_ext := loop_ext st;
             loop_log := loop_log st |}
      | Some (i, _) =>
          {| running := None;
             ready := ready st;
             next_id := next_id st;
             loop_ext := loop_ext st;
             loop_log := loop_log st |}
      | None => st
      end
  end.

Definition drive (cs : list choice) (st : loop) : loop :=
  List.fold_left (fun st c => drive1 c st) cs st.

Definition allowed (c : choice) : Prop :=
  match c with
  | Arrive p => spawnable p
  | Resume _ | Advance => True
  end.

End Steps.

(** [main], after the server is loaded: what runs first and what may be
    started later, by mode. *)
Definition boot (model_server : ModelServer.t Ext) (args : Args.t) (mode : Mode)
    (stdin : list keyboard) (x : Ext) : loop :=
  {| running := None;
     ready :=
       match mode with
       | interactive =>
           [(0, interactive_mode unicode_lower float_str model_server args stdin)]
       | api => []
       end;
     next_id := 1;
     loop_ext := x;
     loop_log := [] |}.

Definition spawns (model_server : ModelServer.t Ext) (mode : Mode)
    (p : prog Ext unit) : Prop :=
  match mode with
  | interactive => False
  | api =>
      (exists request, p = void (api_generate model_server request))
      \/ p = void (api_root model_server)
      \/ p = void (api_health model_server)
  end.

End EventLoop.

Arguments Arrive {Ext} p.
Arguments Resume {Ext} n.
Arguments Advance {Ext}.

(* ================================================================== *)
(** ** A small tokenizer and model, to run the definitions *)
(* ================================================================== *)

Module Toy.

(** One token per code point; id 0 is the end-of-sequence token, id 1 the
    padding token, both special. *)
Definition encode (text : str) : list Z := List.map Z.of_N text.

Definition is_special (id : Z) : bool := (id =? 0)%Z || (id =? 1)%Z.

Definition call (text : str) (truncation : bool) (max_length : option nat)
    : result BatchEncoding.t :=
  let ids :=
    match truncation, max_length with
    | true, Some n => List.firstn n (encode text)
    | _, _ => encode text
    end in
  Ok {| BatchEncoding.input_ids := ids;
        BatchEncoding.attention_mask := List.map (fun _ => 1%Z) ids;
        BatchEncoding.on_device := None |}.

Definition decode (ids : list Z) (skip_special_tokens : bool) : result str :=
  Ok (List.map Z.to_N
        (if skip_special_tokens
         then List.filter (fun id => negb (is_special id)) ids
         else ids)).

Definition vocab (s : str) : option Z :=
  if eqb s (lit "<eos>") then Some 0%Z
  else if eqb s (lit "<pad>") then Some 1%Z
  else None.

Definition tokenizer : Tokenizer.t :=
  {| Tokenizer.pad_token := Some (lit "<pad>");
     Tokenizer.eos_token := Some (lit "<eos>");
     Tokenizer.convert_tokens_to_ids := vocab;
     Tokenizer.call := call;
     Tokenizer.decode := decode |}.

(** The model refuses an input that starts with an exclamation mark, and
    continues any other with [continuation] and the end-of-sequence token;
    the outside state counts the calls. *)
Definition model (continuation : str) : Model.t nat :=
  {| Model.device := lit "cpu";
     Model.numel := 42;
     Model.generate := fun x ids _ _ =>
       match ids with
       | 33%Z :: _ => (Raise (Exception (lit "refused")), S x)
       | _ => (Ok [ids ++ encode continuation ++ [0%Z]], S x)
       end |}.

Definition server (continuation : str) : ModelServer.t nat :=
  ModelServer.init (model continuation) tokenizer.

Definition unicode_lower (before after : str) (c : char) : str := [c].
Definition float_str (x : float) : str := lit "?".

Definition args : Args.t :=
  {| Args.model_path := lit "m";
     Args.template := lit "raw";
     Args.temperature := 0.7%float;
     Args.top_p := 0.9%float;
     Args.max_new_tokens := 100;
     Args.repetition_penalty := 1.1%float;
     Args.do_sample := true |}.

Definition start : world nat := {| ext := 0%nat; log := [] |}.

Definition raw_request (s : str) : GenerationRequest.t :=
  GenerationRequest.make
    {| Payload.prompt := s;
       Payload.max_new_tokens := Absent;
       Payload.temperature := Absent;
       Payload.top_p := Absent;
       Payload.repetition_penalty := Absent;
       Payload.do_sample := Absent;
       Payload.template := Given (lit "raw") |}.

End Toy.

(* ================================================================== *)
(** ** Facts about strings *)
(* ================================================================== *)

Lemma eqb_eq (s t : str) : eqb s t = true <-> s = t.
Proof.
  revert t; induction s as [|a s IH]; intros [|b t]; simpl; split;
    try congruence; try reflexivity.
  - intros H. apply andb_true_iff in H as [Hab Hst].
    apply N.eqb_eq in Hab. apply IH in Hst. congruence.
  - intros H. injection H as -> ->.
    rewrite N.eqb_refl. simpl. now apply IH.
Qed.

Lemma eqb_neq (s t : str) : s <> t -> eqb s t = false.
Proof.
  intros H. destruct (eqb s t) eqn:E; [|reflexivity].
  apply eqb_eq in E. contradiction.
Qed.

Lemma startswith_app (s t : str) : startswith (s ++ t) s = true.
Proof.
  induction s as [|a s IH]; simpl; [reflexivity|].
  now rewrite N.eqb_refl, IH.
Qed.

Lemma slice_from_app (s t : str) : slice_from (List.length s) (s ++ t) = t.
Proof.
  unfold slice_from. induction s as [|a s IH]; simpl; auto.
Qed.

(* ================================================================== *)
(** ** Claims on the formatter and on the request defaults *)
(* ================================================================== *)

(** C2. [format_prompt] is a function of the prompt and the template only:
    it wraps the prompt in the ChatML block for ["chatml"], in
    [Human: .. Assistant: ] for ["chat"], in the instruction block for
    ["instruct"], and returns the prompt unchanged for ["raw"], for any
    other string and for [None]; it never fails. *)
Theorem format_prompt_spec (P : str) :
  format_prompt P (Some (lit "chatml"))
    = lit "<|im_start|>user" ++ nl ++ P ++ nl ++ lit "<|im_end|>" ++ nl
        ++ lit "<|im_start|>assistant" ++ nl
  /\ format_prompt P (Some (lit "chat"))
    = lit "Human: " ++ P ++ nl ++ nl ++ lit "Assistant: "
  /\ format_prompt P (Some (lit "instruct"))
    = lit "### Instruction:" ++ nl ++ P ++ nl ++ nl ++ lit "### Response:" ++ nl
  /\ format_prompt P (Some (lit "raw")) = P
  /\ format_prompt P None = P
  /\ (forall t : str,
        t <> lit "chatml" -> t <> lit "chat" -> t <> lit "instruct" ->
        format_prompt P (Some t) = P).
Proof.
  repeat split; try reflexivity.
  intros t H1 H2 H3. unfold format_prompt.
  now rewrite (eqb_neq H1), (eqb_neq H2), (eqb_neq H3).
Qed.

(** C6. A payload that carries only a prompt yields the six documented
    defaults, and each option takes its default whenever it is left out,
    whatever the other five are. *)
Theorem request_defaults :
  (forall s : str,
      GenerationRequest.make (Payload.prompt_only s)
      = {| GenerationRequest.prompt := s;
           GenerationRequest.max_new_tokens := Some 100%Z;
           GenerationRequest.temperature := Some 0.7%float;
           GenerationRequest.top_p := Some 0.9%float;
           GenerationRequest.repetition_penalty := Some 1.1%float;
           GenerationRequest.do_sample := Some true;
           GenerationRequest.template := Some (lit "chatml") |})
  /\ (forall p : Payload.t,
        GenerationRequest.max_new_tokens (GenerationRequest.make p)
        = with_default 100%Z (Payload.max_new_tokens p)
        /\ GenerationRequest.temperature (GenerationRequest.make p)
           = with_default 0.7%float (Payload.temperature p)
        /\ GenerationRequest.top_p (GenerationRequest.make p)
           = with_default 0.9%float (Payload.top_p p)
        /\ GenerationRequest.repetition_penalty (GenerationRequest.make p)
           = with_default 1.1%float (Payload.repetition_penalty p)
        /\ GenerationRequest.do_sample (GenerationRequest.make p)
           = with_default true (Payload.do_sample p)
        /\ GenerationRequest.template (GenerationRequest.make p)
           = with_default (lit "chatml") (Payload.template p))
  /\ (forall A (d : A), with_default d Absent = Some d).
Proof.
  split; [reflexivity|]. split; [|reflexivity]. intros p. repeat split.
Qed.

(* ================================================================== *)
(** ** Facts about programs *)
(* ================================================================== *)

Section ProgramFacts.
Variable Ext : Type.
Implicit Types (w : world Ext).

Lemma run_bind {A B : Type} (p : prog Ext A) (f : A -> prog Ext B) w :
  run (bind p f) w =
  match fst (run p w) with
  | Ok a => run (f a) (snd (run p w))
  | Raise e => (Raise e, snd (run p w))
  end.
Proof.
  revert w. induction p as [a|e|X ev g k IH|ev k IH|k IH]; intros w; simpl; auto.
Qed.

Lemma run_try_except {A : Type} (p : prog Ext A) catches h w :
  run (try_except p catches h) w =
  match fst (run p w) with
  | Ok a => (Ok a, snd (run p w))
  | Raise e =>
      if catches e then run (h e) (snd (run p w)) else (Raise e, snd (run p w))
  end.
Proof.
  revert w. induction p as [a|e|X ev g k IH|ev k IH|k IH]; intros w; simpl; auto.
  destruct (catches e); reflexivity.
Qed.

Lemma run_leaving {A : Type} (p : prog Ext A) w :
  run (leaving p) w =
  (fst (run p w), logged (snd (run p w)) EvExit (ext (snd (run p w)))).
Proof.
  revert w. induction p as [a|e|X ev g k IH|ev k IH|k IH]; intros w; simpl; auto.
Qed.

(** A run only appends to the log. *)
Lemma run_log_extends {A : Type} (p : prog Ext A) w :
  exists l, log (snd (run p w)) = log w ++ l.
Proof.
  revert w. induction p as [a|e|X ev g k IH|ev k IH|k IH]; intros w; simpl.
  - exists []. now rewrite app_nil_r.
  - exists []. now rewrite app_nil_r.
  - destruct (IH (fst (g (ext w))) (logged w ev (snd (g (ext w))))) as [l Hl].
    exists (ev :: l). rewrite Hl. simpl. now rewrite <- app_assoc.
  - destruct (IH (logged w ev (ext w))) as [l Hl].
    exists (ev :: l). rewrite Hl. simpl. now rewrite <- app_assoc.
  - apply IH.
Qed.

End ProgramFacts.

(* ================================================================== *)
(** ** Facts about ModelServer.generate *)
(* ================================================================== *)

(** The configurations a log shows [model.generate] was called with. *)
Fixpoint model_configs (l : list event) : list GenerationConfig.t :=
  match l with
  | [] => []
  | EvModelGenerate _ _ c :: l' => c :: model_configs l'
  | _ :: l' => model_configs l'
  end.

(** The number of times a log shows [ModelServer.generate] was entered. *)
Fixpoint entries (l : list event) : nat :=
  match l with
  | [] => 0
  | EvEnter _ _ :: l' => S (entries l')
  | _ :: l' => entries l'
  end.

Section GenerateFacts.
Variable Ext : Type.
Variable self : ModelServer.t Ext.
Variable prompt : str.
Variable max_new_tokens : option Z.
Variables temperature top_p repetition_penalty : option float.
Variable do_sample : option bool.
Variable template : option str.
Variable w : world Ext.

Let tk := ModelServer.tokenizer self.
Let fp := format_prompt prompt template.
Let config :=
  generation_config self max_new_tokens temperature top_p repetition_penalty do_sample.
Let the_call :=
  generate self prompt max_new_tokens temperature top_p repetition_penalty
    do_sample template.

(** The outcome of the call to the model, for the encoding [inputs]. *)
Definition model_outcome (inputs : BatchEncoding.t) : result (list (list Z)) * Ext :=
  Model.generate (ModelServer.model self) (ext w)
    (BatchEncoding.input_ids inputs) (BatchEncoding.attention_mask inputs) config.

(** The log of a call, by how far it gets. *)
Definition log_tokenize : list event :=
  [EvEnter prompt template; EvTokenize fp true (Some 2048%nat)].
Definition log_model (inputs : BatchEncoding.t) : list event :=
  log_tokenize
    ++ [EvModelGenerate (BatchEncoding.input_ids inputs)
          (BatchEncoding.attention_mask inputs) config].
Definition log_decode (inputs : BatchEncoding.t) (first : list Z) : list event :=
  log_model inputs ++ [EvDecode first true].

Definition after (l : list event) (x : Ext) : world Ext :=
  {| ext := x; log := log w ++ l ++ [EvExit] |}.

(** [generate], run: one case per call that may raise. *)
Lemma run_generate :
  run the_call w =
  match Tokenizer.call tk fp true (Some 2048%nat) with
  | Raise e => (Raise e, after log_tokenize (ext w))
  | Ok inputs =>
      let x := snd (model_outcome inputs) in
      match fst (model_outcome inputs) with
      | Raise e => (Raise e, after (log_model inputs) x)
      | Ok [] => (Raise IndexError, after (log_model inputs) x)
      | Ok (first :: _) =>
          match Tokenizer.decode tk first true with
          | Raise e => (Raise e, after (log_decode inputs first) x)
          | Ok full_response =>
              (Ok (fp, strip (slice_from (List.length fp) full_response)),
               after (log_decode inputs first) x)
          end
      end
  end.
Proof.
  unfold the_call, generate, generate_body, after, log_decode, log_model,
    log_tokenize, model_outcome.
  simpl. fold tk fp config.
  destruct (Tokenizer.call tk fp true (Some 2048%nat)) as [inputs|e]; simpl.
  2:{ unfold logged; simpl. now rewrite <- !app_assoc. }
  destruct (Model.generate _ _ _ _ _) as [[[|first more]|e] x]; simpl;
    try (unfold logged; simpl; now rewrite <- !app_assoc).
  destruct (Tokenizer.decode tk first true) as [full|e]; simpl;
    unfold logged; simpl; now rewrite <- !app_assoc.
Qed.

End GenerateFacts.

(** The calls of the tokenizer a log shows, with their flags. *)
Fixpoint tokenizer_calls (l : list event) : list (str * bool * option nat) :=
  match l with
  | [] => []
  | EvTokenize text truncation max_length :: l' =>
      (text, truncation, max_length) :: tokenizer_calls l'
  | _ :: l' => tokenizer_calls l'
  end.

Section TruncationFacts.
Variable n : nat.
Variable L : Truncation.Layout.
Hypothesis special_fit :
  (List.length (Truncation.before L) + List.length (Truncation.after L) <= n)%nat.
Hypothesis too_long : (n < List.length (Truncation.full L))%nat.

Lemma content_exceeds_room :
  (Truncation.room n L < List.length (Truncation.content L))%nat.
Proof.
  unfold Truncation.full in too_long. rewrite !length_app in too_long.
  unfold Truncation.room. lia.
Qed.

Lemma kept_length : List.length (Truncation.kept n L) = Truncation.room n L.
Proof.
  pose proof content_exceeds_room as H. unfold Truncation.kept.
  destruct (Truncation.side L).
  - rewrite firstn_length_le; lia.
  - rewrite length_skipn. lia.
Qed.

(** The truncated encoding has exactly [n] ids. *)
Lemma truncated_length : List.length (Truncation.truncated n L) = n.
Proof.
  unfold Truncation.truncated. rewrite !length_app, kept_length.
  unfold Truncation.room. lia.
Qed.

(** The dropped ids are the excess. *)
Lemma dropped_length :
  List.length (Truncation.dropped n L) = (List.length (Truncation.full L) - n)%nat.
Proof.
  pose proof content_exceeds_room as H.
  unfold Truncation.dropped, Truncation.full. rewrite !length_app.
  unfold Truncation.room in *.
  destruct (Truncation.side L).
  - rewrite length_skipn. lia.
  - rewrite firstn_length_le; lia.
Qed.

End TruncationFacts.

(** Kept and dropped ids make up the ids of the text, in order. *)
Lemma content_rejoined (n : nat) (L : Truncation.Layout) :
  Truncation.content L = Truncation.rejoined n L.
Proof.
  unfold Truncation.rejoined, Truncation.kept, Truncation.dropped.
  destruct (Truncation.side L); now rewrite firstn_skipn.
Qed.

(* ================================================================== *)
(** ** Claims on ModelServer.generate *)
(* ================================================================== *)

Section GenerateClaims.
Variable Ext : Type.
Variable self : ModelServer.t Ext.
Variable prompt : str.
Variable max_new_tokens : option Z.
Variables temperature top_p repetition_penalty : option float.
Variable do_sample : option bool.
Variable template : option str.
Variable w : world Ext.

Let tk := ModelServer.tokenizer self.
Let fp := format_prompt prompt template.
Let config :=
  generation_config self max_new_tokens temperature top_p repetition_penalty do_sample.
Let the_call :=
  generate self prompt max_new_tokens temperature top_p repetition_penalty
    do_sample template.
Let outcome :=
  model_outcome self max_new_tokens temperature top_p repetition_penalty do_sample w.

(** The three calls succeed and the decoded first output row is [full]. *)
Definition decodes_to (full : str) : Prop :=
  exists inputs first more,
    Tokenizer.call tk fp true (Some 2048%nat) = Ok inputs
    /\ fst (outcome inputs) = Ok (first :: more)
    /\ Tokenizer.decode tk first true = Ok full.

Lemma generate_returns full :
  decodes_to full ->
  fst (run the_call w) = Ok (fp, strip (slice_from (List.length fp) full)).
Proof.
  intros (inputs & first & more & Ht & Hm & Hd).
  unfold the_call. rewrite run_generate. fold tk fp. rewrite Ht. simpl.
  fold outcome. rewrite Hm, Hd. reflexivity.
Qed.

Lemma generate_returned a b :
  fst (run the_call w) = Ok (a, b) ->
  a = fp /\ exists full, decodes_to full /\ b = strip (slice_from (List.length fp) full).
Proof.
  unfold the_call. rewrite run_generate. fold tk fp.
  destruct (Tokenizer.call tk fp true (Some 2048%nat)) as [inputs|e] eqn:Ht;
    simpl; [|discriminate].
  fold outcome.
  destruct (fst (outcome inputs)) as [[|first more]|e] eqn:Hm; simpl; try discriminate.
  destruct (Tokenizer.decode tk first true) as [full|e] eqn:Hd; simpl; [|discriminate].
  intros H. injection H as <- <-. split; [reflexivity|].
  exists full. split; [|reflexivity].
  exists inputs, first, more. auto.
Qed.

(** C3. A call of [generate] returns the pair [(formatted_prompt,
    completion)] exactly when tokenization, generation and decoding
    succeed, and then the completion is the decoded first output row
    (decoded with [skip_special_tokens=True]) without its first
    [len(formatted_prompt)] characters, stripped of surrounding
    whitespace. *)
Theorem generate_completion (a b : str) :
  fst (run the_call w) = Ok (a, b)
  <-> a = fp
      /\ exists full,
           decodes_to full /\ b = strip (slice_from (List.length fp) full).
Proof.
  split.
  - apply generate_returned.
  - intros (-> & full & Hfull & ->). now apply generate_returns.
Qed.

(** C4, as the code has it. When the decoded output starts with the
    formatted prompt, the completion is what follows that one leading
    occurrence, stripped of surrounding whitespace. *)
Theorem generate_strips_prompt_once (rest : str) :
  decodes_to (fp ++ rest) ->
  fst (run the_call w) = Ok (fp, strip rest).
Proof.
  intros H. rewrite (generate_returns H). now rewrite slice_from_app.
Qed.

(** What the call appends to the log: it enters [generate] once, and
    calls the model once if tokenization succeeds, not at all otherwise. *)
Lemma generate_log :
  exists l, log (snd (run the_call w)) = log w ++ l
    /\ entries l = 1%nat
    /\ model_configs l =
       match Tokenizer.call tk fp true (Some 2048%nat) with
       | Ok _ => [config]
       | Raise _ => []
       end.
Proof.
  unfold the_call. rewrite run_generate. fold tk fp.
  destruct (Tokenizer.call tk fp true (Some 2048%nat)) as [inputs|e] eqn:Ht; simpl.
  { fold outcome config.
    destruct (fst (outcome inputs)) as [[|first more]|e] eqn:Hm; simpl;
      try (eexists; split; [reflexivity|]; simpl; fold config; now split).
    destruct (Tokenizer.decode tk first true) as [full|e] eqn:Hd; simpl;
      eexists; (split; [reflexivity|]); simpl; fold config; now split. }
  eexists; split; [reflexivity|]. simpl. now split.
Qed.


(** C8. The formatted prompt is encoded with [truncation=True] and
    [max_length=2048], once.  When its encoding has more than 2048 ids
    and the tokenizer answers that call with the truncated encoding (its
    special ids fitting in 2048), no error is raised for the length: the
    model receives exactly 2048 ids, the excess ids of the text never
    reach it, the answer differs from the encoding without truncation,
    and the call returns its pair as soon as generation and decoding
    succeed. *)
Theorem prompt_truncated (L : Truncation.Layout) (enc inputs : BatchEncoding.t) :
  Tokenizer.call tk fp false None = Ok enc ->
  BatchEncoding.input_ids enc = Truncation.full L ->
  (2048 < List.length (BatchEncoding.input_ids enc))%nat ->
  (List.length (Truncation.before L) + List.length (Truncation.after L) <= 2048)%nat ->
  Tokenizer.call tk fp true (Some 2048%nat) = Ok inputs ->
  BatchEncoding.input_ids inputs = Truncation.truncated 2048 L ->
  List.length (BatchEncoding.input_ids inputs) = 2048%nat
  /\ Truncation.content L = Truncation.rejoined 2048 L
  /\ List.length (Truncation.dropped 2048 L)
     = (List.length (BatchEncoding.input_ids enc) - 2048)%nat
  /\ Tokenizer.call tk fp true (Some 2048%nat) <> Tokenizer.call tk fp false None
  /\ (exists l,
        log (snd (run the_call w))
        = log w ++ EvEnter prompt template
                 :: EvTokenize fp true (Some 2048%nat)
                 :: EvModelGenerate (Truncation.truncated 2048 L)
                      (BatchEncoding.attention_mask inputs) config
                 :: l
        /\ tokenizer_calls l = [])
  /\ (forall first more full,
        fst (outcome inputs) = Ok (first :: more) ->
        Tokenizer.decode tk first true = Ok full ->
        fst (run the_call w) = Ok (fp, strip (slice_from (List.length fp) full))).
Proof.
  intros Henc Hfull Hlong Hspecial Ht Hids.
  assert (Hlen : List.length (BatchEncoding.input_ids inputs) = 2048%nat).
  { rewrite Hids. apply truncated_length; [exact Hspecial|].
    now rewrite <- Hfull. }
  split; [exact Hlen|]. split; [apply content_rejoined|]. split.
  { rewrite Hfull. apply dropped_length; [exact Hspecial|]. now rewrite <- Hfull. }
  split.
  { rewrite Ht, Henc. intros H. injection H as H. rewrite H in Hlen. lia. }
  split.
  - rewrite <- Hids.
    unfold the_call. rewrite run_generate. fold tk fp. rewrite Ht. simpl.
    fold outcome.
    destruct (fst (outcome inputs)) as [[|first more]|e]; simpl;
      try (eexists; split; reflexivity).
    destruct (Tokenizer.decode tk first true); simpl; eexists; split; reflexivity.
  - intros first more full Hm Hd. apply generate_returns.
    exists inputs, first, more. auto.
Qed.

End GenerateClaims.

Section PadToken.
Variable Ext : Type.
Variable loaded_model : Model.t Ext.
Variable loaded_tokenizer : Tokenizer.t.

(** The server [__init__] would build without the padding-token line. *)
Definition init_unpatched : ModelServer.t Ext :=
  {| ModelServer.model := loaded_model;
     ModelServer.tokenizer := loaded_tokenizer;
     ModelServer.device := Model.device loaded_model |}.

Lemma init_eos_token_id :
  Tokenizer.eos_token_id (ModelServer.tokenizer (ModelServer.init loaded_model loaded_tokenizer))
  = Tokenizer.eos_token_id loaded_tokenizer.
Proof.
  unfold ModelServer.init. simpl.
  destruct (Tokenizer.pad_token loaded_tokenizer); reflexivity.
Qed.

(** C10. For every loaded tokenizer, whatever its padding token, the
    [pad_token_id] of the configuration handed to [model.generate] is the
    tokenizer's [eos_token_id]; the configuration, and the whole call, are
    the same as if [__init__] had not set the padding token. *)
Theorem pad_token_id_is_eos prompt max_new_tokens temperature top_p
    repetition_penalty do_sample template (w : world Ext) :
  let self := ModelServer.init loaded_model loaded_tokenizer in
  let c :=
    generation_config self max_new_tokens temperature top_p repetition_penalty
      do_sample in
  (exists l,
     log (snd (run (generate self prompt max_new_tokens temperature top_p
                      repetition_penalty do_sample template) w)) = log w ++ l
     /\ model_configs l =
        match Tokenizer.call loaded_tokenizer (format_prompt prompt template)
                true (Some 2048%nat) with
        | Ok _ => [c]
        | Raise _ => []
        end)
  /\ GenerationConfig.pad_token_id c = Tokenizer.eos_token_id loaded_tokenizer
  /\ c = generation_config init_unpatched max_new_tokens temperature top_p
           repetition_penalty do_sample
  /\ run (generate self prompt max_new_tokens temperature top_p
            repetition_penalty do_sample template) w
     = run (generate init_unpatched prompt max_new_tokens temperature top_p
              repetition_penalty do_sample template) w.
Proof.
  intros self c.
  assert (Hcall : Tokenizer.call (ModelServer.tokenizer self)
                  = Tokenizer.call loaded_tokenizer).
  { unfold self, ModelServer.init. simpl.
    destruct (Tokenizer.pad_token loaded_tokenizer); reflexivity. }
  assert (Hdec : Tokenizer.decode (ModelServer.tokenizer self)
                 = Tokenizer.decode loaded_tokenizer).
  { unfold self, ModelServer.init. simpl.
    destruct (Tokenizer.pad_token loaded_tokenizer); reflexivity. }
  assert (Hc : c = generation_config init_unpatched max_new_tokens temperature
                     top_p repetition_penalty do_sample).
  { unfold c, generation_config. unfold self. rewrite init_eos_token_id.
    reflexivity. }
  repeat split.
  - destruct (generate_log self prompt max_new_tokens temperature top_p
                repetition_penalty do_sample template w) as (l & Hl & _ & Hm).
    exists l. split; [exact Hl|]. rewrite Hm, Hcall. reflexivity.
  - unfold c, generation_config. simpl. apply init_eos_token_id.
  - exact Hc.
  - rewrite !run_generate. unfold model_outcome, after, log_decode, log_model.
    fold c. rewrite <- Hc. rewrite Hcall, Hdec. reflexivity.
Qed.

End PadToken.

(* ================================================================== *)
(** ** Facts about strip and lower *)
(* ================================================================== *)

(** [a] is the letter [b] up to ASCII case, [b] being in lower case. *)
Definition same_letter (a b : char) : Prop :=
  a = b \/ (is_ascii_upper a = true /\ (a + 32)%N = b).

(** The line [s] is the keyword [kw] up to case. *)
Definition matches_ci (s kw : str) : Prop := Forall2 same_letter s kw.

Definition lower_letter (b : char) : Prop := (97 <= b <= 122)%N.

Ltac split_comparisons :=
  repeat (match goal with
          | |- context [(?a <=? ?b)%N] => destruct (N.leb_spec a b); try lia
          | |- context [(?a <? ?b)%N] => destruct (N.ltb_spec a b); try lia
          | |- context [(?a =? ?b)%N] => destruct (N.eqb_spec a b); try lia
          end).

Lemma letter_not_space (c : char) : (65 <= c <= 122)%N -> isspace c = false.
Proof. intros H. unfold isspace. split_comparisons; try reflexivity. Qed.

Lemma letter_is_ascii (c : char) : (65 <= c <= 122)%N -> is_ascii c = true.
Proof. intros H. unfold is_ascii. split_comparisons; try reflexivity. Qed.

Lemma upper_range (c : char) : is_ascii_upper c = true -> (65 <= c <= 90)%N.
Proof.
  unfold is_ascii_upper. intros H. apply andb_true_iff in H as [H1 H2].
  apply N.leb_le in H1, H2. lia.
Qed.

Lemma lower_not_upper (c : char) : lower_letter c -> is_ascii_upper c = false.
Proof. unfold lower_letter, is_ascii_upper. intros H. split_comparisons; try reflexivity. Qed.

Lemma same_letter_range (a b : char) :
  same_letter a b -> lower_letter b -> (65 <= a <= 122)%N.
Proof.
  unfold lower_letter. intros [-> | [Hu <-]] Hb; [lia|].
  apply upper_range in Hu. lia.
Qed.

Lemma lstrip_id (s : str) : Forall (fun c => isspace c = false) s -> lstrip s = s.
Proof. intros [|c r Hc _]; simpl; [reflexivity|]. now rewrite Hc. Qed.

Lemma strip_id (s : str) : Forall (fun c => isspace c = false) s -> strip s = s.
Proof.
  intros H. unfold strip, rstrip. rewrite (lstrip_id H).
  rewrite lstrip_id by (apply Forall_rev; exact H).
  apply rev_involutive.
Qed.

Lemma matches_ci_no_space (s kw : str) :
  matches_ci s kw -> Forall lower_letter kw ->
  Forall (fun c => isspace c = false) s.
Proof.
  induction 1 as [|a b s kw Hab _ IH]; intros Hkw; constructor;
    inversion Hkw; subst.
  - apply letter_not_space. eapply same_letter_range; eassumption.
  - now apply IH.
Qed.

Lemma matches_ci_lower ul (s kw : str) :
  matches_ci s kw -> Forall lower_letter kw ->
  forall before, lower_from ul before s = kw.
Proof.
  induction 1 as [|a b s kw Hab _ IH]; intros Hkw before; simpl; [reflexivity|].
  inversion Hkw as [|? ? Hb Hkw']; subst.
  rewrite (IH Hkw'). unfold lower_char.
  rewrite (letter_is_ascii (same_letter_range Hab Hb)).
  destruct Hab as [-> | [Hu <-]].
  - now rewrite (lower_not_upper Hb).
  - now rewrite Hu.
Qed.

Lemma exit_words_lower (kw : str) : In kw exit_words -> Forall lower_letter kw.
Proof.
  unfold exit_words. simpl.
  intros [<- | [<- | [<- | []]]]; repeat constructor; vm_compute; discriminate.
Qed.

(** A line that is an exit keyword up to case passes the test of the
    console. *)
Lemma exit_word_recognised ul (s kw : str) :
  In kw exit_words -> matches_ci s kw ->
  mem (lower ul (strip s)) exit_words = true.
Proof.
  intros Hin Hm.
  pose proof (exit_words_lower Hin) as Hkw.
  rewrite (strip_id (matches_ci_no_space Hm Hkw)).
  unfold lower. rewrite (matches_ci_lower ul Hm Hkw).
  unfold mem. apply existsb_exists. exists kw. split; [exact Hin|].
  now apply eqb_eq.
Qed.

(* ================================================================== *)
(** ** Facts about the endpoint and the console *)
(* ================================================================== *)

Section FrontEnds.
Variable Ext : Type.
Variable unicode_lower : str -> str -> char -> str.
Variable float_str : float -> str.
Variable model_server : ModelServer.t Ext.

(** The call of [generate] a request leads to. *)
Definition request_call (request : GenerationRequest.t) : prog Ext (str * str) :=
  generate model_server
    (GenerationRequest.prompt request)
    (GenerationRequest.max_new_tokens request)
    (GenerationRequest.temperature request)
    (GenerationRequest.top_p request)
    (GenerationRequest.repetition_penalty request)
    (GenerationRequest.do_sample request)
    (GenerationRequest.template request).

(** The call of [generate] a console line leads to. *)
Definition console_call (args : Args.t) (user_input : str) : prog Ext (str * str) :=
  generate model_server user_input
    (Some (Args.max_new_tokens args))
    (Some (Args.temperature args))
    (Some (Args.top_p args))
    (Some (Args.repetition_penalty args))
    (Some (Args.do_sample args))
    (Some (Args.template args)).

Definition response_to (request : GenerationRequest.t) (completion : str)
    : GenerationResponse.t :=
  {| GenerationResponse.response := completion;
     GenerationResponse.prompt := GenerationRequest.prompt request;
     GenerationResponse.generation_config :=
       {| Echo.max_new_tokens := GenerationRequest.max_new_tokens request;
          Echo.temperature := GenerationRequest.temperature request;
          Echo.top_p := GenerationRequest.top_p request;
          Echo.repetition_penalty := GenerationRequest.repetition_penalty request;
          Echo.template := GenerationRequest.template request |} |}.

(** The endpoint, run: it calls [generate] once and maps the outcome. *)
Lemma run_api_generate (request : GenerationRequest.t) (w : world Ext) :
  run (api_generate model_server request) w =
  let g := run (request_call request) w in
  (match fst g with
   | Ok fr => Ok (inl (response_to request (snd fr)))
   | Raise (Exception msg) =>
       Ok (inr {| status_code := 500; detail := api_error ++ msg |})
   | Raise KeyboardInterrupt => Raise KeyboardInterrupt
   end, snd g).
Proof.
  unfold api_generate. rewrite run_try_except, run_bind. fold (request_call request).
  destruct (fst (run (request_call request) w)) as [fr|[msg|]]; reflexivity.
Qed.

(** One turn of the console on a line that is neither an exit keyword
    nor empty: it calls [generate] once, prints the completion or the
    error, and goes on with the rest of the input. *)
Lemma run_console_line (args : Args.t) (s : str) (rest : list keyboard)
    (w : world Ext) :
  mem (lower unicode_lower (strip s)) exit_words = false ->
  strip s <> [] ->
  run (console_loop unicode_lower model_server args (Line s :: rest)) w =
  let w1 := logged (logged w (EvInput ask) (ext w)) (EvPrint lumi_says) (ext w) in
  let g := run (console_call args (strip s)) w1 in
  match fst g with
  | Ok fr =>
      run (console_loop unicode_lower model_server args rest)
        (logged (snd g) (EvPrint (snd fr ++ nl)) (ext (snd g)))
  | Raise (Exception msg) =>
      run (console_loop unicode_lower model_server args rest)
        (logged (snd g) (EvPrint ((generation_error ++ msg) ++ nl)) (ext (snd g)))
  | Raise KeyboardInterrupt => (Raise KeyboardInterrupt, snd g)
  end.
Proof.
  intros Hmem Hne. cbn [console_loop run]. rewrite Hmem.
  destruct (strip s) as [|c u] eqn:Hs; [contradiction|].
  unfold print_end. cbn [bind run]. rewrite app_nil_r.
  rewrite run_bind, run_try_except, run_bind.
  fold (console_call args (c :: u)).
  cbn zeta.
  destruct (fst (run (console_call args (c :: u)) _)) as [fr|[msg|]]; reflexivity.
Qed.

End FrontEnds.

(* ================================================================== *)
(** ** Claims on failures and on the console *)
(* ================================================================== *)

Section Failures.
Variable Ext : Type.
Variable self : ModelServer.t Ext.
Variable prompt : str.
Variable max_new_tokens : option Z.
Variables temperature top_p repetition_penalty : option float.
Variable do_sample : option bool.
Variable template : option str.
Variable w : world Ext.

Let tk := ModelServer.tokenizer self.
Let fp := format_prompt prompt template.
Let outcome :=
  model_outcome self max_new_tokens temperature top_p repetition_penalty do_sample w.

(** Tokenization, generation or decoding raises [e]. *)
Definition fails_with (e : exn) : Prop :=
  Tokenizer.call tk fp true (Some 2048%nat) = Raise e
  \/ exists inputs,
       Tokenizer.call tk fp true (Some 2048%nat) = Ok inputs
       /\ (fst (outcome inputs) = Raise e
           \/ exists first more,
                fst (outcome inputs) = Ok (first :: more)
                /\ Tokenizer.decode tk first true = Raise e).

Lemma generate_raises (e : exn) :
  fails_with e ->
  fst (run (generate self prompt max_new_tokens temperature top_p
              repetition_penalty do_sample template) w) = Raise e.
Proof.
  rewrite run_generate. fold tk fp outcome.
  intros [Ht | (inputs & Ht & [Hm | (first & more & Hm & Hd)])];
    rewrite Ht; simpl; try reflexivity; rewrite Hm; simpl; try reflexivity.
  now rewrite Hd.
Qed.

End Failures.

Section FrontEndClaims.
Variable Ext : Type.
Variable unicode_lower : str -> str -> char -> str.
Variable float_str : float -> str.
Variable model_server : ModelServer.t Ext.

Definition request_fails (request : GenerationRequest.t) (w : world Ext) (e : exn)
    : Prop :=
  fails_with model_server
    (GenerationRequest.prompt request)
    (GenerationRequest.max_new_tokens request)
    (GenerationRequest.temperature request)
    (GenerationRequest.top_p request)
    (GenerationRequest.repetition_penalty request)
    (GenerationRequest.do_sample request)
    (GenerationRequest.template request) w e.

Definition request_decodes (request : GenerationRequest.t) (w : world Ext)
    (full : str) : Prop :=
  decodes_to model_server
    (GenerationRequest.prompt request)
    (GenerationRequest.max_new_tokens request)
    (GenerationRequest.temperature request)
    (GenerationRequest.top_p request)
    (GenerationRequest.repetition_penalty request)
    (GenerationRequest.do_sample request)
    (GenerationRequest.template request) w full.

Definition line_fails (args : Args.t) (user_input : str) (w : world Ext) (e : exn)
    : Prop :=
  fails_with model_server user_input
    (Some (Args.max_new_tokens args)) (Some (Args.temperature args))
    (Some (Args.top_p args)) (Some (Args.repetition_penalty args))
    (Some (Args.do_sample args)) (Some (Args.template args)) w e.

Definition line_decodes (args : Args.t) (user_input : str) (w : world Ext)
    (full : str) : Prop :=
  decodes_to model_server user_input
    (Some (Args.max_new_tokens args)) (Some (Args.temperature args))
    (Some (Args.top_p args)) (Some (Args.repetition_penalty args))
    (Some (Args.do_sample args)) (Some (Args.template args)) w full.

(** The completion cut out of the decoded text [full]. *)
Definition completion_of (prompt : str) (template : option str) (full : str) : str :=
  strip (slice_from (List.length (format_prompt prompt template)) full).

(** The world in which the console calls [generate]: the prompt of
    [input] and the label of the answer are on the screen. *)
Definition prompted (w : world Ext) : world Ext :=
  logged (logged w (EvInput ask) (ext w)) (EvPrint lumi_says) (ext w).

Definition proceeds (args : Args.t) (s : str) : Prop :=
  mem (lower unicode_lower (strip s)) exit_words = false /\ strip s <> [].

(** C7. When tokenization, generation or decoding raises an exception
    with message [msg]:
    - the endpoint answers with status 500 and the message in the detail,
      having entered [generate] once, and a later request whose three
      calls succeed gets its response;
    - the console prints the error line, having entered [generate] once,
      and goes on with the rest of the input, where a later line whose
      three calls succeed gets its completion printed. *)
Theorem generation_failure_recovered
    (request request2 : GenerationRequest.t) (args : Args.t) (s s2 : str)
    (rest rest2 : list keyboard) (w : world Ext) (msg full : str) :
  (request_fails request w (Exception msg) ->
   let w' := snd (run (api_generate model_server request) w) in
   fst (run (api_generate model_server request) w)
   = Ok (inr {| status_code := 500; detail := api_error ++ msg |})
   /\ (exists l, log w' = log w ++ l /\ entries l = 1%nat)
   /\ (request_decodes request2 w' full ->
       fst (run (api_generate model_server request2) w')
       = Ok (inl (response_to request2
                    (completion_of (GenerationRequest.prompt request2)
                       (GenerationRequest.template request2) full)))))
  /\ (proceeds args s ->
      line_fails args (strip s) (prompted w) (Exception msg) ->
      let g := snd (run (console_call model_server args (strip s)) (prompted w)) in
      let w' := logged g (EvPrint ((generation_error ++ msg) ++ nl)) (ext g) in
      run (console_loop unicode_lower model_server args (Line s :: rest)) w
      = run (console_loop unicode_lower model_server args rest) w'
      /\ (exists l, log g = log (prompted w) ++ l /\ entries l = 1%nat)
      /\ (proceeds args s2 ->
          line_decodes args (strip s2) (prompted w') full ->
          let g2 :=
            snd (run (console_call model_server args (strip s2)) (prompted w')) in
          run (console_loop unicode_lower model_server args (Line s2 :: rest2)) w'
          = run (console_loop unicode_lower model_server args rest2)
              (logged g2
                 (EvPrint (completion_of (strip s2) (Some (Args.template args)) full
                             ++ nl))
                 (ext g2)))).
Proof.
  split.
  - intros Hf w'. unfold w'. rewrite !run_api_generate. cbn zeta. cbn [fst snd].
    unfold request_call. rewrite (generate_raises Hf).
    split; [reflexivity|]. split.
    + destruct (generate_log model_server
                  (GenerationRequest.prompt request)
                  (GenerationRequest.max_new_tokens request)
                  (GenerationRequest.temperature request)
                  (GenerationRequest.top_p request)
                  (GenerationRequest.repetition_penalty request)
                  (GenerationRequest.do_sample request)
                  (GenerationRequest.template request) w) as (l & Hl & He & _).
      exists l. auto.
    + intros Hd. rewrite (generate_returns Hd). reflexivity.
  - intros [Hmem Hne] Hf g w'.
    rewrite run_console_line by assumption. cbn zeta.
    fold (prompted w). unfold console_call at 1.
    rewrite (generate_raises Hf). fold (console_call model_server args (strip s)).
    split; [reflexivity|]. split.
    + destruct (generate_log model_server (strip s)
                  (Some (Args.max_new_tokens args)) (Some (Args.temperature args))
                  (Some (Args.top_p args)) (Some (Args.repetition_penalty args))
                  (Some (Args.do_sample args)) (Some (Args.template args))
                  (prompted w)) as (l & Hl & He & _).
      exists l. auto.
    + intros [Hmem2 Hne2] Hd.
      rewrite run_console_line by assumption. cbn zeta.
      fold (prompted w'). unfold console_call at 1.
      rewrite (generate_returns Hd). reflexivity.
Qed.

(** C9. A line that is [exit], [quit] or [q] up to case ends the loop
    with the farewell and nothing else; so does the end of input; neither
    calls the engine.  An empty line (a line that is empty once stripped)
    leads back to [input] without calling the engine. *)
Theorem console_exit_and_empty (args : Args.t) (rest : list keyboard)
    (w : world Ext) :
  (forall s kw,
      In kw exit_words -> matches_ci s kw ->
      run (console_loop unicode_lower model_server args (Line s :: rest)) w
      = (Ok tt, {| ext := ext w;
                   log := log w ++ [EvInput ask; EvPrint (goodbye ++ nl)] |}))
  /\ run (console_loop unicode_lower model_server args (EOFError :: rest)) w
     = (Ok tt, {| ext := ext w;
                  log := log w ++ [EvInput ask;
                                   EvPrint ((nl ++ nl ++ goodbye) ++ nl)] |})
  /\ run (console_loop unicode_lower model_server args []) w
     = (Ok tt, {| ext := ext w;
                  log := log w ++ [EvInput ask;
                                   EvPrint ((nl ++ nl ++ goodbye) ++ nl)] |})
  /\ (forall s,
        strip s = [] ->
        run (console_loop unicode_lower model_server args (Line s :: rest)) w
        = run (console_loop unicode_lower model_server args rest)
            (logged w (EvInput ask) (ext w))).
Proof.
  repeat split.
  - intros s kw Hin Hm. cbn [console_loop run].
    rewrite (exit_word_recognised unicode_lower Hin Hm).
    unfold print. cbn [run]. unfold logged. cbn [log ext]. now rewrite <- (app_assoc (log w)).
  - cbn [console_loop run]. unfold print. cbn [run]. unfold logged. cbn [log ext].
    now rewrite <- (app_assoc (log w)).
  - cbn [console_loop run]. unfold print. cbn [run]. unfold logged. cbn [log ext].
    now rewrite <- (app_assoc (log w)).
  - intros s Hs. cbn [console_loop run]. rewrite Hs. reflexivity.
Qed.

End FrontEndClaims.

(* ================================================================== *)
(** ** Facts about the event loop *)
(* ================================================================== *)

Section SafePrograms.
Variable Ext : Type.

Lemma inner_bind {A B : Type} (p : prog Ext A) (f : A -> prog Ext B) :
  inner p -> (forall a, inner (f a)) -> inner (bind p f).
Proof.
  induction p as [a|e|X ev g k IH|ev k IH|k IH]; simpl; intros Hp Hf; auto.
  destruct Hp as [Hev Hk]. split; [exact Hev|]. intros r. now apply IH.
Qed.

Lemma inner_call {X : Type} ev (f : Ext -> result X * Ext) :
  mark_step true ev = Some true -> inner (call ev f).
Proof. intros H. simpl. split; [exact H|]. intros [x|e]; exact I. Qed.

Lemma inner_leaving {A : Type} (p : prog Ext A) : inner p -> safe true (leaving p).
Proof.
  induction p as [a|e|X ev g k IH|ev k IH|k IH]; simpl; intros Hp;
    try reflexivity; try contradiction.
  destruct Hp as [-> Hk]. intros r. now apply IH.
Qed.

Lemma safe_bind {A B : Type} (p : prog Ext A) (f : A -> prog Ext B) b :
  safe b p -> (forall a, safe false (f a)) -> safe b (bind p f).
Proof.
  revert b. induction p as [a|e|X ev g k IH|ev k IH|k IH]; simpl; intros b Hp Hf.
  - subst b. apply Hf.
  - exact Hp.
  - destruct (mark_step b ev) as [b'|]; [|contradiction].
    intros r. now apply IH.
  - destruct (mark_step b ev) as [b'|]; [|contradiction]. now apply IH.
  - destruct Hp as [-> Hk]. split; [reflexivity|]. now apply IH.
Qed.

Lemma safe_try_except {A : Type} (p : prog Ext A) catches h b :
  safe b p -> (forall e, safe false (h e)) -> safe b (try_except p catches h).
Proof.
  revert b. induction p as [a|e|X ev g k IH|ev k IH|k IH]; simpl; intros b Hp Hh.
  - exact Hp.
  - subst b. destruct (catches e); [apply Hh|reflexivity].
  - destruct (mark_step b ev) as [b'|]; [|contradiction].
    intros r. now apply IH.
  - destruct (mark_step b ev) as [b'|]; [|contradiction]. now apply IH.
  - destruct Hp as [-> Hk]. split; [reflexivity|]. now apply IH.
Qed.

Lemma safe_print (s : str) : safe false (@print Ext s).
Proof. reflexivity. Qed.

Lemma safe_void {A : Type} (p : prog Ext A) : safe false p -> safe false (void p).
Proof. intros H. apply safe_bind; [exact H|]. reflexivity. Qed.

(** [generate] keeps its calls between its marks. *)
Lemma safe_generate (self : ModelServer.t Ext) prompt max_new_tokens temperature
    top_p repetition_penalty do_sample template :
  safe false (generate self prompt max_new_tokens temperature top_p
                repetition_penalty do_sample template).
Proof.
  unfold generate. cbn [safe mark_step]. apply inner_leaving.
  unfold generate_body.
  apply inner_bind; [now apply inner_call|]. intros inputs.
  apply inner_bind; [now apply inner_call|]. intros outputs.
  apply inner_bind; [destruct outputs; exact I|]. intros first.
  apply inner_bind; [now apply inner_call|]. intros full. exact I.
Qed.

Lemma safe_api_generate (model_server : ModelServer.t Ext) request :
  safe false (api_generate model_server request).
Proof.
  unfold api_generate. apply safe_try_except.
  - apply safe_bind; [apply safe_generate|]. reflexivity.
  - reflexivity.
Qed.

Lemma safe_console_loop ul (model_server : ModelServer.t Ext) args stdin :
  safe false (console_loop ul model_server args stdin).
Proof.
  induction stdin as [|[s| |] rest IH]; cbn [console_loop safe mark_step];
    try apply safe_print.
  destruct (mem (lower ul (strip s)) exit_words); [apply safe_print|].
  destruct (strip s) as [|c u]; [exact IH|].
  apply safe_bind; [reflexivity|]. intros _.
  apply safe_bind; [|intros _; exact IH].
  apply safe_try_except; [|intros e; apply safe_print].
  apply safe_bind; [apply safe_generate|]. intros fr. apply safe_print.
Qed.

Lemma safe_interactive_mode ul fs (model_server : ModelServer.t Ext) args stdin :
  safe false (interactive_mode ul fs model_server args stdin).
Proof.
  unfold interactive_mode. apply safe_bind; [reflexivity|]. intros _.
  apply safe_try_except; [apply safe_console_loop|]. intros e. apply safe_print.
Qed.

(** Every coroutine the process starts is safe. *)
Lemma spawns_safe (model_server : ModelServer.t Ext) mode p :
  spawns model_server mode p -> safe false p.
Proof.
  destruct mode; simpl; [contradiction|].
  intros [[request ->] | [-> | ->]].
  - apply safe_void, safe_api_generate.
  - reflexivity.
  - reflexivity.
Qed.

End SafePrograms.

Lemma holder_from_app (c : option nat) (l1 l2 : list (nat * event)) :
  holder_from c (l1 ++ l2)
  = match holder_from c l1 with
    | Some c' => holder_from c' l2
    | None => None
    end.
Proof.
  revert c. induction l1 as [|e l1 IH]; intros c; simpl; [reflexivity|].
  destruct (holder_step c e); [apply IH|reflexivity].
Qed.

(** The event of a task at position [b] moves the observer accordingly. *)
Lemma holder_step_own (i : nat) (b b' : bool) (ev : event) :
  mark_step b ev = Some b' ->
  holder_step (holder_of i b) (i, ev) = Some (holder_of i b').
Proof.
  intros H. destruct b; simpl.
  - rewrite Nat.eqb_refl, H. reflexivity.
  - rewrite H. reflexivity.
Qed.

Lemma mark_step_leaves (ev : event) :
  mark_step true ev = Some false -> ev = EvExit.
Proof. destruct ev; simpl; congruence. Qed.

(** While task [i] is inside, an engine event of another task is
    refused unless [i] has left in between. *)
Lemma held_until_exit (i j : nat) (ev : event) (l2 l3 : list (nat * event)) :
  is_engine_event ev = true -> j <> i ->
  holder_from (Some i) (l2 ++ (j, ev) :: l3) <> None ->
  In (i, EvExit) l2.
Proof.
  intros Hev Hji. induction l2 as [|[k e] l2 IH]; simpl.
  - apply Nat.eqb_neq in Hji. rewrite Hji, Hev. congruence.
  - destruct (Nat.eqb_spec k i) as [->|Hk].
    + destruct (mark_step true e) as [[|]|] eqn:He; simpl; [| |congruence].
      * intros H. right. now apply IH.
      * intros _. left. now rewrite (@mark_step_leaves e He).
    + destruct (is_engine_event e); [congruence|].
      intros H. right. now apply IH.
Qed.

Lemma serialized_exclusive (l : list (nat * event)) :
  serialized l = true -> exclusive l.
Proof.
  unfold serialized, exclusive. intros Hs l1 i p t l2 j ev l3 -> Hev Hji.
  rewrite holder_from_app in Hs.
  destruct (holder_from None l1) as [c1|]; [|discriminate].
  cbn [holder_from] in Hs.
  assert (Hstep : holder_step c1 (i, EvEnter p t) = Some (Some i)
                  \/ holder_step c1 (i, EvEnter p t) = None).
  { destruct c1 as [k|]; simpl; [|now left].
    destruct (Nat.eqb i k); now right. }
  destruct Hstep as [Hstep | Hstep]; rewrite Hstep in Hs; [|discriminate].
  apply held_until_exit with (j := j) (ev := ev) (l3 := l3); [exact Hev|exact Hji|].
  destruct (holder_from (Some i) (l2 ++ (j, ev) :: l3)); congruence.
Qed.

Section LoopFacts.
Variable Ext : Type.
Variable spawnable : prog Ext unit -> Prop.
Hypothesis spawnable_safe : forall p, spawnable p -> safe false p.

(** What holds of every state of the loop: the waiting coroutines are
    outside [generate], the log is serialized, and the observer's holder
    is the running coroutine exactly when that one is inside. *)
Definition loop_inv (st : loop Ext) : Prop :=
  (forall t, In t (ready st) -> safe false (snd t))
  /\ exists b,
       holder_from None (loop_log st)
       = Some (match running st with
               | Some t => holder_of (fst t) b
               | None => None
               end)
       /\ match running st with
          | Some t => safe b (snd t)
          | None => True
          end.

Lemma loop_inv_logged (st : loop Ext) i b b' ev :
  holder_from None (loop_log st) = Some (holder_of i b) ->
  mark_step b ev = Some b' ->
  holder_from None (loop_log st ++ [(i, ev)]) = Some (holder_of i b').
Proof.
  intros Hl Hev. rewrite holder_from_app, Hl. cbn [holder_from].
  now rewrite (@holder_step_own i b b' ev Hev).
Qed.

Lemma loop_step_inv (st st' : loop Ext) :
  loop_step spawnable st st' -> loop_inv st -> loop_inv st'.
Proof.
  intros Hstep (Hready & b & Hlog & Hrun).
  destruct Hstep as [st p Hp|st before t after Hnone Hsplit|st i X ev f k Hr
                     |st i ev k Hr|st i k Hr|st i p Hr Hfin];
    unfold loop_inv; cbn [running ready loop_log].
  - split.
    + intros t Ht. apply in_app_or in Ht as [Ht|[<-|[]]]; [now apply Hready|].
      now apply spawnable_safe.
    + exists b. auto.
  - rewrite Hnone in Hlog. split.
    + intros t' Ht'. apply Hready. rewrite Hsplit.
      apply in_app_or in Ht' as [Ht'|Ht']; apply in_or_app; [now left|].
      right. now right.
    + exists false. split; [exact Hlog|].
      apply Hready. rewrite Hsplit. apply in_or_app. right. now left.
  - rewrite Hr in Hlog, Hrun. cbn [fst snd safe] in Hlog, Hrun.
    destruct (mark_step b ev) as [b'|] eqn:Hev; [|contradiction].
    split; [exact Hready|]. exists b'. split; [|apply Hrun].
    now apply (@loop_inv_logged st i b b' ev).
  - rewrite Hr in Hlog, Hrun. cbn [fst snd safe] in Hlog, Hrun.
    destruct (mark_step b ev) as [b'|] eqn:Hev; [|contradiction].
    split; [exact Hready|]. exists b'. split; [|exact Hrun].
    now apply (@loop_inv_logged st i b b' ev).
  - rewrite Hr in Hlog, Hrun. cbn [fst snd safe] in Hlog, Hrun.
    destruct Hrun as [-> Hk]. split.
    + intros t Ht. apply in_app_or in Ht as [Ht|[<-|[]]]; [now apply Hready|].
      exact Hk.
    + exists false. auto.
  - rewrite Hr in Hlog, Hrun. cbn [fst snd] in Hlog, Hrun.
    split; [exact Hready|]. exists false. split; [|exact I].
    destruct p; try discriminate; simpl in Hrun; subst b; exact Hlog.
Qed.

Lemma reachable_inv (st0 st : loop Ext) :
  loop_inv st0 -> reachable spawnable st0 st -> loop_inv st.
Proof.
  intros H0. induction 1 as [|st st' _ IH Hstep]; [exact H0|].
  now apply (loop_step_inv Hstep).
Qed.

Lemma loop_inv_serialized (st : loop Ext) :
  loop_inv st -> serialized (loop_log st) = true.
Proof. intros (_ & b & Hlog & _). unfold serialized. now rewrite Hlog. Qed.

Lemma split_at_nth {T : Type} (l : list T) (n : nat) (t : T) :
  List.nth_error l n = Some t ->
  l = List.firstn n l ++ t :: List.skipn (S n) l.
Proof.
  revert n. induction l as [|a l IH]; intros [|n]; simpl; try discriminate.
  - intros H. now injection H as ->.
  - intros H. f_equal. now apply IH.
Qed.

(** The loop driven by choices stays among the reachable states. *)
Lemma drive1_reachable (st0 st : loop Ext) (c : choice Ext) :
  allowed spawnable c ->
  reachable spawnable st0 st -> reachable spawnable st0 (drive1 c st).
Proof.
  intros Hc Hst. destruct c as [p|n|]; simpl.
  - eapply reach_step; [exact Hst|]. now apply step_arrive.
  - destruct (running st) eqn:Hr; [exact Hst|].
    destruct (List.nth_error (ready st) n) as [t|] eqn:Hn; [|exact Hst].
    eapply reach_step; [exact Hst|].
    apply step_resume; [exact Hr|]. now apply split_at_nth.
  - destruct (running st) as [[i p]|] eqn:Hr; [|exact Hst].
    destruct p as [a|e|X ev f k|ev k|k];
      (eapply reach_step; [exact Hst|]).
    + now apply step_finish with (i := i) (p := Ret a).
    + now apply step_finish with (i := i) (p := Throw e).
    + now apply step_call.
    + now apply step_emit.
    + now apply step_await.
Qed.

Lemma drive_reachable (st0 : loop Ext) (cs : list (choice Ext)) (st : loop Ext) :
  Forall (allowed spawnable) cs ->
  reachable spawnable st0 st -> reachable spawnable st0 (drive cs st).
Proof.
  unfold drive. intros Hcs. revert st.
  induction Hcs as [|c cs Hc _ IH]; intros st Hst; simpl; [exact Hst|].
  apply IH. now apply drive1_reachable.
Qed.

End LoopFacts.

(* ================================================================== *)
(** ** Claim on the serialization of generate *)
(* ================================================================== *)

(** C1. Whatever the mode, the requests that arrive and the order in
    which the loop resumes its coroutines, the calls of
    [ModelServer.generate] do not overlap: once a caller has entered
    [generate], no other caller enters it, or reaches the tokenizer or
    the model, before the first has left. *)
Theorem generate_calls_serialized (Ext : Type) ul fs
    (model_server : ModelServer.t Ext) (args : Args.t) (mode : Mode)
    (stdin : list keyboard) (x : Ext) (st : loop Ext) :
  reachable (spawns model_server mode)
    (boot ul fs model_server args mode stdin x) st ->
  serialized (loop_log st) = true /\ exclusive (loop_log st).
Proof.
  intros Hreach.
  assert (Hinv : loop_inv st).
  { apply (reachable_inv (@spawns_safe Ext model_server mode)) with (2 := Hreach).
    split.
    - destruct mode; simpl; [|contradiction].
      intros t [<-|[]]. apply safe_interactive_mode.
    - exists false. simpl. auto. }
  pose proof (loop_inv_serialized Hinv) as Hs.
  split; [exact Hs|]. now apply serialized_exclusive.
Qed.

(* ================================================================== *)
(** ** Runs on the small tokenizer and model *)
(* ================================================================== *)

(** The padding token of the small tokenizer is not its end-of-sequence
    token, and the configuration still pads with the latter. *)
Example toy_pad_is_not_eos :
  Tokenizer.pad_token_id Toy.tokenizer = Some 1%Z
  /\ Tokenizer.eos_token_id Toy.tokenizer = Some 0%Z
  /\ GenerationConfig.pad_token_id
       (generation_config (Toy.server []) None None None None None) = Some 0%Z.
Proof. repeat split. Qed.

Lemma format_prompt_spec_witness :
  format_prompt (lit "hello") (Some (lit "alpaca")) = lit "hello".
Proof.
  apply (format_prompt_spec (lit "hello")); intros H; vm_compute in H; discriminate H.
Defined.

Lemma generate_completion_witness :
  fst (run (generate (Toy.server (lit " hi ")) (lit "a") None None None None None
              (Some (lit "chat"))) Toy.start)
  = Ok (lit "Human: a" ++ nl ++ nl ++ lit "Assistant: ", lit "hi").
Proof.
  apply (proj2 (generate_completion (Toy.server (lit " hi ")) (lit "a") None None
                  None None None (Some (lit "chat")) Toy.start
                  (lit "Human: a" ++ nl ++ nl ++ lit "Assistant: ") (lit "hi"))).
  split; [reflexivity|].
  exists (lit "Human: a" ++ nl ++ nl ++ lit "Assistant:  hi "). split.
  - eexists _, _, _. repeat split; vm_compute; reflexivity.
  - vm_compute. reflexivity.
Defined.

(** C4, as stated, fails: on the prompt [a] with the raw template, a model
    that answers [ab] yields the decoded text [aab] and the completion
    [ab], which starts with the formatted prompt [a]. *)
Lemma completion_starts_with_prompt :
  fst (run (generate (Toy.server (lit "ab")) (lit "a") None None None None None
              (Some (lit "raw"))) Toy.start)
  = Ok (lit "a", lit "ab")
  /\ format_prompt (lit "a") (Some (lit "raw")) = lit "a"
  /\ startswith (lit "ab") (lit "a") = true.
Proof. repeat split. Qed.

Lemma generate_strips_prompt_once_witness :
  fst (run (generate (Toy.server (lit "ab")) (lit "a") None None None None None
              (Some (lit "raw"))) Toy.start)
  = Ok (lit "a", strip (lit "ab")).
Proof.
  apply (@generate_strips_prompt_once nat (Toy.server (lit "ab")) (lit "a") None None
           None None None (Some (lit "raw")) Toy.start (lit "ab")).
  eexists _, _, _. repeat split; vm_compute; reflexivity.
Defined.

(** A prompt of 2100 characters, which the small tokenizer encodes to
    2100 ids. *)
Definition long_prompt : str := List.repeat 97%N 2100.

(** The encoding of [long_prompt] by the small tokenizer: no special
    ids, cut on the right. *)
Definition long_layout : Truncation.Layout :=
  {| Truncation.before := [];
     Truncation.content := Toy.encode long_prompt;
     Truncation.after := [];
     Truncation.side := Truncation.side_right |}.

Lemma prompt_truncated_witness :
  List.length (List.firstn 2048 (Toy.encode long_prompt)) = 2048%nat
  /\ List.length (Truncation.dropped 2048 long_layout) = 52%nat
  /\ fst (run (generate (Toy.server (lit "b")) long_prompt None None None None
                 None (Some (lit "raw"))) Toy.start)
     = Ok (long_prompt,
           strip (slice_from (List.length long_prompt)
                    (List.firstn 2048 long_prompt ++ lit "b"))).
Proof.
  assert (Hlong : (2048 < List.length (Toy.encode long_prompt))%nat).
  { apply Nat.ltb_lt. vm_compute. reflexivity. }
  assert (Hfit : (List.length (Truncation.before long_layout)
                  + List.length (Truncation.after long_layout) <= 2048)%nat).
  { simpl. lia. }
  assert (Hids : List.firstn 2048 (Toy.encode long_prompt)
                 = Truncation.truncated 2048 long_layout).
  { vm_compute. reflexivity. }
  destruct (@prompt_truncated nat (Toy.server (lit "b")) long_prompt None None None
              None None (Some (lit "raw")) Toy.start long_layout
              {| BatchEncoding.input_ids := Toy.encode long_prompt;
                 BatchEncoding.attention_mask :=
                   List.map (fun _ => 1%Z) (Toy.encode long_prompt);
                 BatchEncoding.on_device := None |}
              {| BatchEncoding.input_ids := List.firstn 2048 (Toy.encode long_prompt);
                 BatchEncoding.attention_mask :=
                   List.map (fun _ => 1%Z)
                     (List.firstn 2048 (Toy.encode long_prompt));
                 BatchEncoding.on_device := None |}
              eq_refl eq_refl Hlong Hfit eq_refl Hids)
    as (Hlen & _ & Hdrop & _ & _ & Hret).
  split; [exact Hlen|]. split.
  - rewrite Hdrop. vm_compute. reflexivity.
  - apply (Hret (List.firstn 2048 (Toy.encode long_prompt) ++ Toy.encode (lit "b")
                   ++ [0%Z])
             [] (List.firstn 2048 long_prompt ++ lit "b")); vm_compute; reflexivity.
Defined.

Lemma console_exit_and_empty_witness :
  run (console_loop Toy.unicode_lower (Toy.server []) Toy.args
         [Line (lit "QuIt"); Line (lit "hi")]) Toy.start
  = (Ok tt, {| ext := 0%nat; log := [EvInput ask; EvPrint (goodbye ++ nl)] |})
  /\ run (console_loop Toy.unicode_lower (Toy.server []) Toy.args
            [Line (lit "  "); Line (lit "hi")]) Toy.start
     = run (console_loop Toy.unicode_lower (Toy.server []) Toy.args
              [Line (lit "hi")]) (logged Toy.start (EvInput ask) 0%nat).
Proof.
  destruct (console_exit_and_empty Toy.unicode_lower (Toy.server []) Toy.args
              [Line (lit "hi")] Toy.start) as (Hexit & _ & _ & Hempty).
  split.
  - apply (Hexit (lit "QuIt") (lit "quit")).
    + simpl. right. left. reflexivity.
    + constructor; [right; split; reflexivity|].
      constructor; [left; reflexivity|].
      constructor; [right; split; reflexivity|].
      constructor; [left; reflexivity|].
      constructor.
  - apply (Hempty (lit "  ")). reflexivity.
Defined.

Lemma generation_failure_recovered_witness :
  let srv := Toy.server (lit " ok") in
  let bad := Toy.raw_request (lit "!") in
  let good := Toy.raw_request (lit "hi") in
  (request_fails srv bad Toy.start (Exception (lit "refused"))
   /\ fst (run (api_generate srv bad) Toy.start)
      = Ok (inr {| status_code := 500; detail := api_error ++ lit "refused" |})
   /\ fst (run (api_generate srv good) (snd (run (api_generate srv bad) Toy.start)))
      = Ok (inl (response_to good (lit "ok"))))
  /\ (proceeds Toy.unicode_lower Toy.args (lit "!")
      /\ line_fails srv Toy.args (lit "!") (prompted Toy.start)
           (Exception (lit "refused"))
      /\ fst (run (console_loop Toy.unicode_lower srv Toy.args
                     [Line (lit "!"); Line (lit "hi")]) Toy.start)
         = Ok tt
      /\ engine_events
           (log (snd (run (console_loop Toy.unicode_lower srv Toy.args
                             [Line (lit "!"); Line (lit "hi")]) Toy.start)))
         = engine_events
             (log (snd (run (console_call srv Toy.args (lit "!")) Toy.start))
              ++ log (snd (run (console_call srv Toy.args (lit "hi")) Toy.start)))).
Proof.
  intros srv bad good.
  assert (Hbad : request_fails srv bad Toy.start (Exception (lit "refused"))).
  { right. eexists. split; [reflexivity|]. left. reflexivity. }
  assert (Hline : line_fails srv Toy.args (lit "!") (prompted Toy.start)
                    (Exception (lit "refused"))).
  { right. eexists. split; [reflexivity|]. left. reflexivity. }
  assert (Hgo : proceeds Toy.unicode_lower Toy.args (lit "!")).
  { split; [reflexivity|]. vm_compute. discriminate. }
  assert (Hgo2 : proceeds Toy.unicode_lower Toy.args (lit "hi")).
  { split; [reflexivity|]. vm_compute. discriminate. }
  destruct (generation_failure_recovered Toy.unicode_lower srv bad good
              Toy.args (lit "!") (lit "hi") [Line (lit "hi")] []
              Toy.start (lit "refused") (lit "hi ok")) as [Hapi Hcon].
  destruct (Hapi Hbad) as (H500 & _ & Hnext).
  destruct (Hcon Hgo Hline) as (Hloop & _ & Hthen).
  split.
  - split; [exact Hbad|]. split; [exact H500|].
    apply Hnext. eexists _, _, _. repeat split; vm_compute; reflexivity.
  - split; [exact Hgo|]. split; [exact Hline|].
    rewrite Hloop. rewrite Hthen.
    + split; vm_compute; reflexivity.
    + exact Hgo2.
    + eexists _, _, _. repeat split; vm_compute; reflexivity.
Defined.

(** Two requests in API mode, the second arriving while the first is
    inside [generate]: the loop cannot resume the second before the first
    coroutine has finished. *)
Definition two_requests : list (choice nat) :=
  [Arrive (void (api_generate (Toy.server (lit " ok")) (Toy.raw_request (lit "hi"))));
   Resume 0; Advance; Advance;
   Arrive (void (api_generate (Toy.server (lit " ok")) (Toy.raw_request (lit "!"))));
   Resume 0; Advance; Advance; Advance; Advance;
   Resume 0; Advance; Advance; Advance; Advance; Advance].

Definition after_two_requests : loop nat :=
  drive two_requests
    (boot Toy.unicode_lower Toy.float_str (Toy.server (lit " ok")) Toy.args api [] 0%nat).

Lemma generate_calls_serialized_witness :
  List.map fst (loop_log after_two_requests)
  = [1; 1; 1; 1; 1; 2; 2; 2; 2]%nat
  /\ serialized (loop_log after_two_requests) = true
  /\ exclusive (loop_log after_two_requests).
Proof.
  split; [vm_compute; reflexivity|].
  apply (@generate_calls_serialized nat Toy.unicode_lower Toy.float_str
           (Toy.server (lit " ok")) Toy.args api [] 0%nat).
  unfold after_two_requests. apply drive_reachable; [|apply reach_start].
  unfold two_requests.
  repeat match goal with
         | |- Forall _ _ => constructor
         | |- allowed _ (Arrive _) => left; eexists; reflexivity
         | |- allowed _ _ => exact I
         end.
Defined.

(* ================================================================== *)
(** ** Further properties: strip and the completion *)
(* ================================================================== *)

Definition all_space (s : str) : Prop := Forall (fun c => isspace c = true) s.

(** [s] neither starts nor ends with whitespace. *)
Definition bare (s : str) : Prop :=
  match s with
  | [] => True
  | c :: _ => isspace c = false
  end
  /\ match List.rev s with
     | [] => True
     | c :: _ => isspace c = false
     end.

Lemma lstrip_split (s : str) : exists pre, s = pre ++ lstrip s /\ all_space pre.
Proof.
  induction s as [|c r (pre & Hpre & Hsp)]; simpl.
  - exists []. split; [reflexivity|constructor].
  - destruct (isspace c) eqn:Hc.
    + exists (c :: pre). split; [simpl; now f_equal|now constructor].
    + exists []. split; [reflexivity|constructor].
Qed.

Lemma lstrip_head (s : str) :
  match lstrip s with
  | [] => True
  | c :: _ => isspace c = false
  end.
Proof.
  induction s as [|c r IH]; simpl; [exact I|].
  destruct (isspace c) eqn:Hc; [exact IH|exact Hc].
Qed.

Lemma rstrip_snoc (s : str) (c : char) :
  rstrip (s ++ [c]) = if isspace c then rstrip s else s ++ [c].
Proof.
  unfold rstrip. rewrite rev_app_distr. simpl.
  destruct (isspace c); [reflexivity|].
  simpl. now rewrite rev_involutive.
Qed.

Lemma rstrip_split (s : str) : exists post, s = rstrip s ++ post /\ all_space post.
Proof.
  induction s as [|c s (post & Hpost & Hsp)] using rev_ind.
  - exists []. split; [reflexivity|constructor].
  - rewrite rstrip_snoc. destruct (isspace c) eqn:Hc.
    + exists (post ++ [c]). split.
      * rewrite app_assoc. now rewrite <- Hpost.
      * apply Forall_app. split; [exact Hsp|now constructor].
    + exists []. split; [now rewrite app_nil_r|constructor].
Qed.

Lemma rstrip_last (s : str) :
  match List.rev (rstrip s) with
  | [] => True
  | c :: _ => isspace c = false
  end.
Proof.
  induction s as [|c s IH] using rev_ind; [exact I|].
  rewrite rstrip_snoc. destruct (isspace c) eqn:Hc; [exact IH|].
  rewrite rev_app_distr. exact Hc.
Qed.

Lemma rstrip_keeps_head (a : char) (r : str) :
  isspace a = false -> exists r', rstrip (a :: r) = a :: r'.
Proof.
  intros Ha. destruct (rstrip_split (a :: r)) as (post & Hpost & Hsp).
  destruct (rstrip (a :: r)) as [|a' r'].
  - simpl in Hpost. subst post. inversion Hsp; congruence.
  - injection Hpost as <- _. now exists r'.
Qed.

(** [strip] removes a run of whitespace at each end and leaves a string
    that neither starts nor ends with whitespace. *)
Lemma strip_split (s : str) :
  exists pre post,
    s = pre ++ strip s ++ post /\ all_space pre /\ all_space post /\ bare (strip s).
Proof.
  destruct (lstrip_split s) as (pre & Hpre & Hsp).
  destruct (rstrip_split (lstrip s)) as (post & Hpost & Hsq).
  exists pre, post. unfold strip. split; [|split; [exact Hsp|split; [exact Hsq|]]].
  - now rewrite <- Hpost.
  - split; [|apply rstrip_last].
    pose proof (lstrip_head s) as Hh.
    destruct (lstrip s) as [|a r]; [exact I|].
    destruct (@rstrip_keeps_head a r Hh) as [r' ->]. exact Hh.
Qed.

Section CompletionFacts.
Variable Ext : Type.
Variable self : ModelServer.t Ext.
Variable prompt : str.
Variable max_new_tokens : option Z.
Variables temperature top_p repetition_penalty : option float.
Variable do_sample : option bool.
Variable template : option str.
Variable w : world Ext.

Let fp := format_prompt prompt template.
Let the_call :=
  generate self prompt max_new_tokens temperature top_p repetition_penalty
    do_sample template.
Let decoded :=
  decodes_to self prompt max_new_tokens temperature top_p repetition_penalty
    do_sample template w.

(** X1. The completion [generate] returns is a contiguous piece of the
    decoded text: the decoded text is its first [len(formatted_prompt)]
    characters, a run of whitespace, the completion, and a run of
    whitespace; the completion itself neither starts nor ends with
    whitespace. *)
Theorem completion_is_trimmed_piece (a b : str) :
  fst (run the_call w) = Ok (a, b) ->
  exists full pre post,
    decoded full
    /\ full = List.firstn (List.length fp) full ++ pre ++ b ++ post
    /\ all_space pre /\ all_space post /\ bare b.
Proof.
  intros H. apply generate_returned in H as (_ & full & Hd & ->).
  fold fp.
  destruct (strip_split (slice_from (List.length fp) full))
    as (pre & post & Hs & Hpre & Hpost & Hbare).
  exists full, pre, post. repeat split; try assumption; try apply Hbare.
  rewrite <- Hs. unfold slice_from. now rewrite firstn_skipn.
Qed.

(** X2. When the decoded text is not longer than the formatted prompt
    (the model added nothing, or decoding dropped special tokens of the
    prompt, or the prompt was truncated), the completion is empty. *)
Theorem short_output_gives_empty_completion (full : str) :
  decoded full ->
  (List.length full <= List.length fp)%nat ->
  fst (run the_call w) = Ok (fp, []).
Proof.
  intros Hd Hlen. unfold the_call, fp. rewrite (generate_returns Hd).
  fold fp. unfold slice_from. now rewrite skipn_all2.
Qed.

End CompletionFacts.

Lemma completion_is_trimmed_piece_witness :
  exists full pre post,
    full = lit "Human: a" ++ nl ++ nl ++ lit "Assistant:  hi "
    /\ full = List.firstn 21 full ++ pre ++ lit "hi" ++ post
    /\ all_space pre /\ all_space post /\ bare (lit "hi").
Proof.
  destruct (@completion_is_trimmed_piece nat (Toy.server (lit " hi ")) (lit "a")
              None None None None None (Some (lit "chat")) Toy.start
              (lit "Human: a" ++ nl ++ nl ++ lit "Assistant: ") (lit "hi") eq_refl)
    as (full & pre & post & Hd & Hfull & Hpre & Hpost & Hbare).
  exists full, pre, post.
  destruct Hd as (inputs & first & more & Ht & Hm & Hdec).
  simpl in Ht. injection Ht as <-.
  vm_compute in Hm. injection Hm as <- _.
  vm_compute in Hdec. injection Hdec as <-.
  repeat split; try assumption; try apply Hbare.
Defined.

Lemma short_output_gives_empty_completion_witness :
  fst (run (generate (Toy.server (lit "b")) long_prompt None None None None None
              (Some (lit "raw"))) Toy.start)
  = Ok (long_prompt, []).
Proof.
  apply (@short_output_gives_empty_completion nat (Toy.server (lit "b")) long_prompt
           None None None None None (Some (lit "raw")) Toy.start
           (List.firstn 2048 long_prompt ++ lit "b")).
  - eexists _, _, _. repeat split; vm_compute; reflexivity.
  - apply Nat.leb_le. vm_compute. reflexivity.
Defined.

(* ================================================================== *)
(** ** Further properties: the formatter and the loading of the server *)
(* ================================================================== *)

Definition wrapping_templates : list str := [lit "chatml"; lit "chat"; lit "instruct"].

(** The template selects one of the three wrappers. *)
Definition wraps (template : option str) : Prop :=
  exists t, template = Some t /\ In t wrapping_templates.

Lemma format_prompt_cases (P : str) (template : option str) :
  (wraps template /\ exists pre post,
       pre <> [] /\ forall Q, format_prompt Q template = pre ++ Q ++ post)
  \/ (~ wraps template /\ forall Q, format_prompt Q template = Q).
Proof.
  destruct template as [t|].
  2:{ right. split; [|reflexivity]. intros (t & Ht & _). discriminate. }
  unfold format_prompt.
  destruct (eqb t (lit "chatml")) eqn:E1.
  { left. apply eqb_eq in E1. split.
    - exists t. split; [reflexivity|]. subst t. simpl. auto.
    - exists (lit "<|im_start|>user" ++ nl),
             (nl ++ lit "<|im_end|>" ++ nl ++ lit "<|im_start|>assistant" ++ nl).
      split; [discriminate|]. intros Q. now rewrite <- !app_assoc. }
  destruct (eqb t (lit "chat")) eqn:E2.
  { left. apply eqb_eq in E2. split.
    - exists t. split; [reflexivity|]. subst t. simpl. auto.
    - exists (lit "Human: "), (nl ++ nl ++ lit "Assistant: ").
      split; [discriminate|]. reflexivity. }
  destruct (eqb t (lit "instruct")) eqn:E3.
  { left. apply eqb_eq in E3. split.
    - exists t. split; [reflexivity|]. subst t. simpl. auto.
    - exists (lit "### Instruction:" ++ nl), (nl ++ nl ++ lit "### Response:" ++ nl).
      split; [discriminate|]. intros Q. now rewrite <- !app_assoc. }
  right. split; [|reflexivity].
  intros (t' & Ht & Hin). injection Ht as <-.
  simpl in Hin. destruct Hin as [<-|[<-|[<-|[]]]].
  - vm_compute in E1. discriminate.
  - vm_compute in E2. discriminate.
  - vm_compute in E3. discriminate.
Qed.

(** X3. For a fixed template, different prompts give different formatted
    prompts. *)
Theorem format_prompt_injective (P Q : str) (template : option str) :
  format_prompt P template = format_prompt Q template -> P = Q.
Proof.
  destruct (format_prompt_cases P template)
    as [(_ & pre & post & _ & Hf) | (_ & Hf)]; rewrite !Hf; [|auto].
  intros H. apply app_inv_head in H. now apply app_inv_tail in H.
Qed.

(** X4. The formatter adds the same number of characters to every
    prompt (51 for [chatml], 20 for [chat], 33 for [instruct], none
    otherwise), and it returns the prompt unchanged exactly when the
    template is not one of those three. *)
Theorem format_prompt_overhead (P : str) (template : option str) :
  List.length (format_prompt P template)
  = (List.length P
     + match template with
       | Some t =>
           if eqb t (lit "chatml") then 51
           else if eqb t (lit "chat") then 20
           else if eqb t (lit "instruct") then 33
           else 0
       | None => 0
       end)%nat
  /\ (format_prompt P template = P <-> ~ wraps template).
Proof.
  split.
  - destruct template as [t|]; simpl; [|lia].
    destruct (eqb t (lit "chatml")); [|destruct (eqb t (lit "chat"));
      [|destruct (eqb t (lit "instruct"))]];
      unfold lit, nl; simpl; repeat rewrite length_app; simpl; lia.
  - destruct (format_prompt_cases P template)
      as [(Hw & pre & post & Hne & Hf) | (Hw & Hf)]; rewrite Hf.
    + split; [|contradiction]. intros H.
      apply (f_equal (@List.length char)) in H. rewrite !length_app in H.
      destruct pre; [contradiction|]. simpl in H. lia.
    + split; auto.
Qed.

Section Loading.
Variable Ext : Type.
Variable loaded_model : Model.t Ext.
Variable loaded_tokenizer : Tokenizer.t.

Let self := ModelServer.init loaded_model loaded_tokenizer.

(** X5. After [__init__] the tokenizer has a padding token unless the
    loaded tokenizer has neither a padding nor an end-of-sequence token;
    a padding token that was there is kept, a missing one becomes the
    end-of-sequence token (and so does its id); the end-of-sequence token
    is never changed, and the server's device is the model's. *)
Theorem init_pad_token :
  (Tokenizer.pad_token (ModelServer.tokenizer self) = None
   <-> Tokenizer.pad_token loaded_tokenizer = None
       /\ Tokenizer.eos_token loaded_tokenizer = None)
  /\ (forall p, Tokenizer.pad_token loaded_tokenizer = Some p ->
        ModelServer.tokenizer self = loaded_tokenizer)
  /\ (Tokenizer.pad_token loaded_tokenizer = None ->
        Tokenizer.pad_token (ModelServer.tokenizer self)
        = Tokenizer.eos_token loaded_tokenizer
        /\ Tokenizer.pad_token_id (ModelServer.tokenizer self)
           = Tokenizer.eos_token_id loaded_tokenizer)
  /\ Tokenizer.eos_token (ModelServer.tokenizer self)
     = Tokenizer.eos_token loaded_tokenizer
  /\ ModelServer.device self = Model.device loaded_model.
Proof.
  unfold self, ModelServer.init. simpl.
  destruct (Tokenizer.pad_token loaded_tokenizer) as [p|] eqn:Hp; simpl.
  - rewrite Hp. repeat split; try discriminate; try tauto.
  - repeat split; try discriminate; try tauto.
Qed.

End Loading.

Lemma format_prompt_overhead_witness :
  format_prompt (lit "hi") (Some (lit "raw")) = lit "hi".
Proof.
  apply (proj2 (format_prompt_overhead (lit "hi") (Some (lit "raw")))).
  intros (t & Ht & Hin). injection Ht as <-.
  simpl in Hin. destruct Hin as [H|[H|[H|[]]]]; vm_compute in H; discriminate H.
Defined.

Lemma format_prompt_injective_witness :
  lit "hi" = lit "hi".
Proof.
  apply (@format_prompt_injective (lit "hi") (lit "hi") (Some (lit "chatml"))).
  reflexivity.
Defined.

Lemma init_pad_token_witness :
  let tk := Tokenizer.set_pad_token Toy.tokenizer None in
  Tokenizer.pad_token (ModelServer.tokenizer (ModelServer.init (Toy.model []) tk))
  = Some (lit "<eos>")
  /\ Tokenizer.pad_token_id
       (ModelServer.tokenizer (ModelServer.init (Toy.model []) tk))
     = Some 0%Z.
Proof.
  intros tk.
  destruct (init_pad_token (Toy.model []) tk) as (_ & _ & H & _).
  exact (H eq_refl).
Defined.

(* ================================================================== *)
(** ** Further properties: the effects of generate and the endpoint *)
(* ================================================================== *)

(** The calls of [tokenizer.decode] a log shows. *)
Fixpoint decode_calls (l : list event) : list (list Z * bool) :=
  match l with
  | [] => []
  | EvDecode ids skip :: l' => (ids, skip) :: decode_calls l'
  | _ :: l' => decode_calls l'
  end.

Section GenerateEffects.
Variable Ext : Type.
Variable self : ModelServer.t Ext.
Variable prompt : str.
Variable max_new_tokens : option Z.
Variables temperature top_p repetition_penalty : option float.
Variable do_sample : option bool.
Variable template : option str.
Variable w : world Ext.

Let tk := ModelServer.tokenizer self.
Let fp := format_prompt prompt template.
Let the_call :=
  generate self prompt max_new_tokens temperature top_p repetition_penalty
    do_sample template.
Let outcome :=
  model_outcome self max_new_tokens temperature top_p repetition_penalty do_sample w.

(** X6. [generate] neither prints nor reads input; it changes the state
    outside the server only through [model.generate], so a call whose
    tokenization fails leaves it as it was; and it decodes at most once,
    the first output row with [skip_special_tokens=True], and only after
    the model has returned a batch that is not empty. *)
Theorem generate_effects :
  exists l,
    log (snd (run the_call w)) = log w ++ l
    /\ engine_events l = l
    /\ ext (snd (run the_call w))
       = match Tokenizer.call tk fp true (Some 2048%nat) with
         | Ok inputs => snd (outcome inputs)
         | Raise _ => ext w
         end
    /\ decode_calls l
       = match Tokenizer.call tk fp true (Some 2048%nat) with
         | Ok inputs =>
             match fst (outcome inputs) with
             | Ok (first :: _) => [(first, true)]
             | _ => []
             end
         | Raise _ => []
         end.
Proof.
  unfold the_call. rewrite run_generate. fold tk fp.
  destruct (Tokenizer.call tk fp true (Some 2048%nat)) as [inputs|e]; simpl.
  2:{ eexists. split; [reflexivity|]. repeat split. }
  fold outcome.
  destruct (fst (outcome inputs)) as [[|first more]|e]; simpl;
    try (eexists; split; [reflexivity|]; repeat split).
  destruct (Tokenizer.decode tk first true) as [full|e]; simpl;
    eexists; (split; [reflexivity|]); repeat split.
Qed.

End GenerateEffects.

Section EndpointFacts.
Variable Ext : Type.
Variable model_server : ModelServer.t Ext.
Variable request : GenerationRequest.t.
Variable w : world Ext.

Let the_call := request_call model_server request.
Let outcome :=
  model_outcome model_server
    (GenerationRequest.max_new_tokens request)
    (GenerationRequest.temperature request)
    (GenerationRequest.top_p request)
    (GenerationRequest.repetition_penalty request)
    (GenerationRequest.do_sample request) w.

(** X7. The endpoint never lets an [Exception] escape: it returns a
    response exactly when [generate] returns, with the completion, the
    raw prompt of the request and the five echoed options; it raises
    [HTTPException] with status 500 and the message exactly when
    [generate] raises an [Exception]; only a keyboard interrupt goes
    through.  It does nothing but that one call. *)
Theorem endpoint_outcomes :
  snd (run (api_generate model_server request) w) = snd (run the_call w)
  /\ match fst (run (api_generate model_server request) w) with
     | Ok (inl r) =>
         exists fp completion,
           fst (run the_call w) = Ok (fp, completion)
           /\ GenerationResponse.response r = completion
           /\ GenerationResponse.prompt r = GenerationRequest.prompt request
           /\ GenerationResponse.generation_config r
              = {| Echo.max_new_tokens := GenerationRequest.max_new_tokens request;
                   Echo.temperature := GenerationRequest.temperature request;
                   Echo.top_p := GenerationRequest.top_p request;
                   Echo.repetition_penalty :=
                     GenerationRequest.repetition_penalty request;
                   Echo.template := GenerationRequest.template request |}
     | Ok (inr h) =>
         exists msg,
           fst (run the_call w) = Raise (Exception msg)
           /\ status_code h = 500%Z
           /\ detail h = api_error ++ msg
     | Raise e => e = KeyboardInterrupt /\ fst (run the_call w) = Raise e
     end.
Proof.
  rewrite run_api_generate. cbn zeta. fold the_call. split; [reflexivity|].
  cbn [fst]. destruct (fst (run the_call w)) as [[fp completion]|[msg|]].
  - exists fp, completion. repeat split.
  - exists msg. repeat split.
  - split; reflexivity.
Qed.

(** X8. A model that returns an empty batch makes [outputs[0]] raise:
    [generate] fails with an [Exception] without calling
    [tokenizer.decode], and the endpoint answers with status 500. *)
Theorem empty_batch_is_an_error (inputs : BatchEncoding.t) :
  Tokenizer.call (ModelServer.tokenizer model_server)
    (format_prompt (GenerationRequest.prompt request)
       (GenerationRequest.template request)) true (Some 2048%nat) = Ok inputs ->
  fst (outcome inputs) = Ok [] ->
  exists msg l,
    fst (run the_call w) = Raise (Exception msg)
    /\ log (snd (run the_call w)) = log w ++ l
    /\ decode_calls l = []
    /\ fst (run (api_generate model_server request) w)
       = Ok (inr {| status_code := 500; detail := api_error ++ msg |}).
Proof.
  intros Ht Hm. rewrite run_api_generate. cbn zeta. cbn [fst]. fold the_call.
  unfold the_call, request_call. rewrite run_generate. rewrite Ht. cbn zeta.
  fold outcome. rewrite Hm. cbn [fst snd].
  eexists _, _. split; [reflexivity|]. split; [reflexivity|]. split; reflexivity.
Qed.

End EndpointFacts.


Lemma empty_batch_is_an_error_witness :
  let silent : Model.t nat :=
    {| Model.device := lit "cpu";
       Model.numel := 0;
       Model.generate := fun x _ _ _ => (Ok [], x) |} in
  let srv := ModelServer.init silent Toy.tokenizer in
  exists msg,
    fst (run (api_generate srv (Toy.raw_request (lit "hi"))) Toy.start)
    = Ok (inr {| status_code := 500; detail := api_error ++ msg |}).
Proof.
  intros silent srv.
  destruct (@empty_batch_is_an_error nat srv (Toy.raw_request (lit "hi")) Toy.start
              {| BatchEncoding.input_ids := Toy.encode (lit "hi");
                 BatchEncoding.attention_mask := [1%Z; 1%Z];
                 BatchEncoding.on_device := None |} eq_refl eq_refl)
    as (msg & l & _ & _ & _ & H).
  exists msg. exact H.
Defined.


(* ================================================================== *)
(** ** Further properties: the console *)
(* ================================================================== *)



(** ASCII case folding of one code point. *)
Definition ascii_fold (c : char) : char :=
  if is_ascii_upper c then (c + 32)%N else c.

Lemma lower_ascii ul (s : str) :
  Forall (fun c => is_ascii c = true) s ->
  forall before, lower_from ul before s = List.map ascii_fold s.
Proof.
  induction 1 as [|c s Hc _ IH]; intros before; simpl; [reflexivity|].
  unfold lower_char. rewrite Hc. simpl. now rewrite IH.
Qed.

Lemma fold_matches (s kw : str) : List.map ascii_fold s = kw -> matches_ci s kw.
Proof.
  intros <-. induction s as [|c s IH]; simpl; constructor; [|exact IH].
  unfold ascii_fold, same_letter.
  destruct (is_ascii_upper c); [right|left]; auto.
Qed.

Section ConsoleFacts.
Variable Ext : Type.
Variable unicode_lower : str -> str -> char -> str.
Variable float_str : float -> str.
Variable model_server : ModelServer.t Ext.
Variable args : Args.t.

Let loop := console_loop unicode_lower model_server args.

(** The line ends the console. *)
Definition exits (s : str) : Prop :=
  mem (lower unicode_lower (strip s)) exit_words = true.


(** The loop ends normally or on a keyboard interrupt raised during
    generation, never on an [Exception]. *)
Lemma console_loop_outcome (stdin : list keyboard) (w : world Ext) :
  fst (run (loop stdin) w) = Ok tt
  \/ fst (run (loop stdin) w) = Raise KeyboardInterrupt.
Proof.
  unfold loop. revert w. induction stdin as [|[s| |] rest IH]; intros w;
    try (left; reflexivity).
  destruct (mem (lower unicode_lower (strip s)) exit_words) eqn:Hm.
  { left. cbn [console_loop run]. now rewrite Hm. }
  destruct (strip s) as [|c u] eqn:Hs.
  { cbn [console_loop run]. rewrite Hs. simpl. apply IH. }
  rewrite run_console_line; [|now rewrite Hs|rewrite Hs; discriminate].
  cbn zeta.
  destruct (fst (run (console_call model_server args (strip s)) _)) as [fr|[msg|]].
  - apply IH.
  - apply IH.
  - now right.
Qed.

(** X10. [interactive_mode] always returns normally, whatever the
    keyboard delivers and whatever the tokenizer and the model do: an
    [Exception] of a generation is caught in the loop, a keyboard
    interrupt around it. *)
Theorem interactive_mode_returns (stdin : list keyboard) (w : world Ext) :
  fst (run (interactive_mode unicode_lower float_str model_server args stdin) w)
  = Ok tt.
Proof.
  unfold interactive_mode. rewrite run_bind.
  assert (Hb : fst (run (@banner Ext float_str args) w) = Ok tt) by reflexivity.
  rewrite Hb. rewrite run_try_except. fold loop.
  destruct (console_loop_outcome stdin (snd (run (@banner Ext float_str args) w)))
    as [-> | ->]; reflexivity.
Qed.





(** X13. A line that is [exit], [quit] or [q] up to case once its
    surrounding whitespace is removed ends the console wherever it comes
    in the input: what the keyboard delivers after it changes nothing. *)
Theorem nothing_read_after_exit (before : list keyboard) (s kw : str)
    (rest rest' : list keyboard) (w : world Ext) :
  In kw exit_words -> matches_ci (strip s) kw ->
  run (loop (before ++ Line s :: rest)) w = run (loop (before ++ Line s :: rest')) w.
Proof.
  intros Hin Hmatch.
  assert (Hexit : exits s).
  { unfold exits, lower.
    rewrite (matches_ci_lower unicode_lower Hmatch (exit_words_lower Hin)).
    unfold mem. apply existsb_exists. exists kw. split; [exact Hin|now apply eqb_eq]. }
  unfold loop. revert w. induction before as [|[s0| |] pre IH]; intros w;
    try reflexivity.
  - cbn [app console_loop run]. unfold exits in Hexit. now rewrite Hexit.
  - cbn [app].
    destruct (mem (lower unicode_lower (strip s0)) exit_words) eqn:Hm.
    { cbn [console_loop run]. now rewrite Hm. }
    destruct (strip s0) as [|c u] eqn:Hs.
    { cbn [console_loop run]. rewrite Hs, Hm. apply IH. }
    rewrite !run_console_line;
      try (rewrite Hs; exact Hm); try (rewrite Hs; discriminate).
    cbn zeta.
    destruct (fst (run (console_call model_server args (strip s0)) _))
      as [fr|[msg|]]; [apply IH|apply IH|reflexivity].
Qed.

(** X14. For a line of ASCII characters the console's exit test is
    exactly a match up to case: the line ends the console if and only if,
    stripped, it is [exit], [quit] or [q] up to case. *)
Theorem exit_test_on_ascii (s : str) :
  Forall (fun c => is_ascii c = true) (strip s) ->
  (exits s <-> exists kw, In kw exit_words /\ matches_ci (strip s) kw).
Proof.
  intros Hascii. unfold exits. split.
  - intros H. unfold mem in H. apply existsb_exists in H as (kw & Hin & Heq).
    apply eqb_eq in Heq. exists kw. split; [exact Hin|].
    apply fold_matches. rewrite <- Heq. unfold lower.
    symmetry. now apply lower_ascii.
  - intros (kw & Hin & Hm). unfold lower.
    rewrite (matches_ci_lower unicode_lower Hm (exit_words_lower Hin)).
    unfold mem. apply existsb_exists. exists kw. split; [exact Hin|now apply eqb_eq].
Qed.

End ConsoleFacts.



Lemma nothing_read_after_exit_witness :
  run (console_loop Toy.unicode_lower (Toy.server []) Toy.args
         ([Line (lit "hi")] ++ Line (lit "  Exit ") :: [Line (lit "more")])) Toy.start
  = run (console_loop Toy.unicode_lower (Toy.server []) Toy.args
           ([Line (lit "hi")] ++ Line (lit "  Exit ") :: [])) Toy.start.
Proof.
  apply (@nothing_read_after_exit nat Toy.unicode_lower (Toy.server []) Toy.args
           [Line (lit "hi")] (lit "  Exit ") (lit "exit")).
  - simpl. left. reflexivity.
  - assert (Hs : strip (lit "  Exit ") = lit "Exit") by reflexivity.
    rewrite Hs.
    constructor; [right; split; reflexivity|].
    constructor; [left; reflexivity|].
    constructor; [left; reflexivity|].
    constructor; [left; reflexivity|].
    constructor.
Defined.

Lemma exit_test_on_ascii_witness :
  exists kw, In kw exit_words /\ matches_ci (strip (lit " Q ")) kw.
Proof.
  apply (proj1 (@exit_test_on_ascii Toy.unicode_lower (lit " Q ")
                  ltac:(repeat constructor))).
  reflexivity.
Defined.

(* ================================================================== *)
(** ** Further properties: a coroutine of the application on the loop *)
(* ================================================================== *)

Section NoSuspension.
Variable Ext : Type.

(** A program without suspension point. *)
Fixpoint await_free {A : Type} (p : prog Ext A) : Prop :=
  match p with
  | Ret _ | Throw _ => True
  | Call _ _ k => forall r, await_free (k r)
  | Emit _ k => await_free k
  | Await _ => False
  end.

Lemma await_free_bind {A B : Type} (p : prog Ext A) (f : A -> prog Ext B) :
  await_free p -> (forall a, await_free (f a)) -> await_free (bind p f).
Proof.
  induction p as [a|e|X ev g k IH|ev k IH|k IH]; simpl; intros Hp Hf; auto.
Qed.

Lemma await_free_try_except {A : Type} (p : prog Ext A) catches h :
  await_free p -> (forall e, await_free (h e)) -> await_free (try_except p catches h).
Proof.
  induction p as [a|e|X ev g k IH|ev k IH|k IH]; simpl; intros Hp Hh; auto.
  destruct (catches e); [apply Hh|exact I].
Qed.

Lemma await_free_leaving {A : Type} (p : prog Ext A) :
  await_free p -> await_free (leaving p).
Proof.
  induction p as [a|e|X ev g k IH|ev k IH|k IH]; simpl; intros Hp; auto.
Qed.

Lemma await_free_lift {X : Type} (r : result X) : await_free (@lift Ext X r).
Proof. destruct r; exact I. Qed.

Lemma await_free_generate (self : ModelServer.t Ext) prompt a b c d e template :
  await_free (generate self prompt a b c d e template).
Proof.
  unfold generate, generate_body, call. cbn [await_free].
  apply await_free_leaving. cbn [bind await_free]. intros r.
  apply await_free_bind; [apply await_free_lift|]. intros inputs.
  cbn [bind await_free]. intros r'.
  apply await_free_bind; [apply await_free_lift|]. intros outputs.
  apply await_free_bind; [destruct outputs; exact I|]. intros first.
  cbn [bind await_free]. intros r''.
  apply await_free_bind; [apply await_free_lift|]. intros full. exact I.
Qed.

Lemma await_free_api_generate (model_server : ModelServer.t Ext) request :
  await_free (void (api_generate model_server request)).
Proof.
  unfold void, api_generate. apply await_free_bind; [|intros; exact I].
  apply await_free_try_except; [|intros; exact I].
  apply await_free_bind; [apply await_free_generate|]. intros; exact I.
Qed.

Definition fresh (x : Ext) : world Ext := {| ext := x; log := [] |}.

(** A run does not read the log. *)
Lemma run_frame {A : Type} (p : prog Ext A) (x : Ext) (l0 : list event) :
  fst (run p {| ext := x; log := l0 |}) = fst (run p (fresh x))
  /\ ext (snd (run p {| ext := x; log := l0 |})) = ext (snd (run p (fresh x)))
  /\ log (snd (run p {| ext := x; log := l0 |}))
     = l0 ++ log (snd (run p (fresh x))).
Proof.
  revert x l0. induction p as [a|e|X ev g k IH|ev k IH|k IH]; intros x l0;
    cbn [run fst snd ext log fresh].
  - now rewrite app_nil_r.
  - now rewrite app_nil_r.
  - unfold logged. cbn [ext log].
    change (log (fresh x)) with (@nil event). cbn [app].
    destruct (IH (fst (g x)) (snd (g x)) (l0 ++ [ev])) as (H1 & H2 & H3).
    destruct (IH (fst (g x)) (snd (g x)) [ev]) as (G1 & G2 & G3).
    rewrite H1, H2, H3, G1, G2, G3. now rewrite <- app_assoc.
  - unfold logged. cbn [ext log].
    change (log (fresh x)) with (@nil event). change (ext (fresh x)) with x.
    cbn [app].
    destruct (IH x (l0 ++ [ev])) as (H1 & H2 & H3).
    destruct (IH x [ev]) as (G1 & G2 & G3).
    rewrite H1, H2, H3, G1, G2, G3. now rewrite <- app_assoc.
  - apply IH.
Qed.

(** The state of the loop once the running coroutine [p] of task [i] has
    run to its end as a sequential program would. *)
Definition completed (st : loop Ext) (i : nat) (p : prog Ext unit) : loop Ext :=
  {| running := None;
     ready := ready st;
     next_id := next_id st;
     loop_ext := ext (snd (run p (fresh (loop_ext st))));
     loop_log :=
       loop_log st ++ List.map (pair i) (log (snd (run p (fresh (loop_ext st))))) |}.

Lemma advance_to_the_end (p : prog Ext unit) :
  await_free p ->
  forall (st : loop Ext) (i : nat),
    running st = Some (i, p) ->
    exists n, drive (List.repeat Advance n) st = completed st i p.
Proof.
  unfold completed.
  induction p as [a|e|X ev g k IH|ev k IH|k IH]; intros Hfree st i Hr.
  - exists 1%nat. unfold drive. cbn [repeat fold_left drive1]. rewrite Hr.
    cbn [run snd ext log fresh map]. now rewrite app_nil_r.
  - exists 1%nat. unfold drive. cbn [repeat fold_left drive1]. rewrite Hr.
    cbn [run snd ext log fresh map]. now rewrite app_nil_r.
  - cbn [await_free] in Hfree.
    set (st1 := drive1 Advance st).
    assert (Hst1 : st1 = {| running := Some (i, k (fst (g (loop_ext st))));
                            ready := ready st;
                            next_id := next_id st;
                            loop_ext := snd (g (loop_ext st));
                            loop_log := loop_log st ++ [(i, ev)] |}).
    { unfold st1. cbn [drive1]. now rewrite Hr. }
    destruct (IH (fst (g (loop_ext st))) (Hfree _) st1 i) as [n Hn].
    { rewrite Hst1. reflexivity. }
    exists (S n). unfold drive in *. cbn [repeat fold_left]. fold st1.
    rewrite Hn, Hst1. cbn [ready next_id loop_ext loop_log run].
    unfold logged.
    change (ext (fresh (loop_ext st))) with (loop_ext st).
    change (log (fresh (loop_ext st))) with (@nil event). cbn [app].
    destruct (run_frame (k (fst (g (loop_ext st)))) (snd (g (loop_ext st))) [ev])
      as (_ & G2 & G3).
    rewrite G2, G3. cbn [app map]. now rewrite <- app_assoc.
  - cbn [await_free] in Hfree.
    set (st1 := drive1 Advance st).
    assert (Hst1 : st1 = {| running := Some (i, k);
                            ready := ready st;
                            next_id := next_id st;
                            loop_ext := loop_ext st;
                            loop_log := loop_log st ++ [(i, ev)] |}).
    { unfold st1. cbn [drive1]. now rewrite Hr. }
    destruct (IH Hfree st1 i) as [n Hn].
    { rewrite Hst1. reflexivity. }
    exists (S n). unfold drive in *. cbn [repeat fold_left]. fold st1.
    rewrite Hn, Hst1. cbn [ready next_id loop_ext loop_log run].
    unfold logged.
    change (ext (fresh (loop_ext st))) with (loop_ext st).
    change (log (fresh (loop_ext st))) with (@nil event). cbn [app].
    destruct (run_frame k (loop_ext st) [ev]) as (_ & G2 & G3).
    rewrite G2, G3. cbn [app map]. now rewrite <- app_assoc.
  - contradiction.
Qed.

(** X15. The coroutine of POST /generate has no suspension point: once
    the loop has resumed it, advancing the loop runs it to its end, and
    what it leaves in the log and in the outside state is what the
    sequential run of the endpoint leaves. *)
Theorem request_runs_to_its_end (model_server : ModelServer.t Ext)
    (request : GenerationRequest.t) (st : loop Ext) (i : nat) :
  running st = Some (i, void (api_generate model_server request)) ->
  exists n,
    drive (List.repeat Advance n) st
    = {| running := None;
         ready := ready st;
         next_id := next_id st;
         loop_ext :=
           ext (snd (run (api_generate model_server request) (fresh (loop_ext st))));
         loop_log :=
           loop_log st
             ++ List.map (pair i)
                  (log (snd (run (api_generate model_server request)
                               (fresh (loop_ext st))))) |}.
Proof.
  intros Hr.
  destruct (advance_to_the_end (await_free_api_generate model_server request) st Hr)
    as [n Hn].
  exists n. rewrite Hn. unfold completed, void. rewrite run_bind.
  destruct (fst (run (api_generate model_server request) (fresh (loop_ext st))));
    reflexivity.
Qed.

End NoSuspension.

Lemma request_runs_to_its_end_witness :
  let srv := Toy.server (lit " ok") in
  let request := Toy.raw_request (lit "hi") in
  let st := drive [Arrive (void (api_generate srv request)); Resume 0]
              (boot Toy.unicode_lower Toy.float_str srv Toy.args api [] 0%nat) in
  exists n,
    List.map snd (loop_log (drive (List.repeat Advance n) st))
    = log (snd (run (api_generate srv request) Toy.start)).
Proof.
  intros srv request st.
  destruct (@request_runs_to_its_end nat srv request st 1%nat eq_refl) as [n Hn].
  exists n. rewrite Hn. cbn [loop_log].
  vm_compute. reflexivity.
Defined.

(* ================================================================== *)
(** ** Further properties: the command line *)
(* ================================================================== *)

(** The options of [main]'s parser as given on the command line, after
    argparse has converted their values: an option left out is [None], a
    flag is present or not. *)
Module CommandLine.
Record t := {
  model_path : str;
  tokenizer_path : option str;
  mode : option str;
  max_new_tokens : option Z;
  temperature : option float;
  top_p : option float;
  repetition_penalty : option float;
  do_sample : bool;
  template : option str;
  host : option str;
  port : option Z
}.

Definition only (path : str) : t :=
  {| model_path := path;
     tokenizer_path := None;
     mode := None;
     max_new_tokens := None;
     temperature := None;
     top_p := None;
     repetition_penalty := None;
     do_sample := false;
     template := None;
     host := None;
     port := None |}.
End CommandLine.

(** The namespace [parse_args] returns. *)
Module Namespace.
Record t := {
  args : Args.t;
  mode : Mode;
  tokenizer_path : option str;
  host : str;
  port : Z
}.
End Namespace.

Definition template_choices : list str :=
  [lit "chatml"; lit "chat"; lit "instruct"; lit "raw"].

(** The templates the root endpoint of [create_app] advertises. *)
Definition available_templates : list str :=
  [lit "chatml"; lit "chat"; lit "instruct"; lit "raw"].

Definition or_default {A : Type} (d : A) (o : option A) : A :=
  match o with
  | Some a => a
  | None => d
  end.

(** [parser.parse_args()]: [None] when argparse rejects a value that is
    not among the choices of its option. *)
Definition parse_args (cl : CommandLine.t) : option Namespace.t :=
  match
    match CommandLine.mode cl with
    | None => Some interactive
    | Some m =>
        if eqb m (lit "interactive") then Some interactive
        else if eqb m (lit "api") then Some api
        else None
    end
  with
  | None => None
  | Some mode =>
      let template := or_default (lit "chatml") (CommandLine.template cl) in
      if mem template template_choices then
        Some
          {| Namespace.args :=
               {| Args.model_path := CommandLine.model_path cl;
                  Args.template := template;
                  Args.temperature := or_default 0.7%float (CommandLine.temperature cl);
                  Args.top_p := or_default 0.9%float (CommandLine.top_p cl);
                  Args.max_new_tokens :=
                    or_default 100%Z (CommandLine.max_new_tokens cl);
                  Args.repetition_penalty :=
                    or_default 1.1%float (CommandLine.repetition_penalty cl);
                  Args.do_sample :=
                    if CommandLine.do_sample cl then true else true |};
             Namespace.mode := mode;
             Namespace.tokenizer_path := CommandLine.tokenizer_path cl;
             Namespace.host := or_default (lit "127.0.0.1") (CommandLine.host cl);
             Namespace.port := or_default 8000%Z (CommandLine.port cl) |}
      else None
  end.

Lemma mem_In (x : str) (l : list str) : mem x l = true <-> In x l.
Proof.
  unfold mem. rewrite existsb_exists. split.
  - intros (y & Hin & Heq). apply eqb_eq in Heq. now subst.
  - intros Hin. exists x. split; [exact Hin|now apply eqb_eq].
Qed.

(** X16. Whatever the command line, the console samples: [--do_sample]
    is a flag whose default is already true, so every configuration the
    console hands to [model.generate] has [do_sample = True]; and its
    template is one of the four the root endpoint advertises, so the
    console formats with one of the three wrappers or, for [raw], not at
    all. *)
Theorem command_line_sampling_and_template (Ext : Type)
    (model_server : ModelServer.t Ext) (cl : CommandLine.t) (ns : Namespace.t)
    (user_input : str) (w : world Ext) :
  parse_args cl = Some ns ->
  Args.do_sample (Namespace.args ns) = true
  /\ In (Args.template (Namespace.args ns)) available_templates
  /\ (wraps (Some (Args.template (Namespace.args ns)))
      \/ Args.template (Namespace.args ns) = lit "raw")
  /\ exists l,
       log (snd (run (console_call model_server (Namespace.args ns) user_input) w))
       = log w ++ l
       /\ Forall (fun c => GenerationConfig.do_sample c = Some true) (model_configs l).
Proof.
  unfold parse_args. intros H.
  destruct (match CommandLine.mode cl with
            | None => Some interactive
            | Some m => _
            end) as [mode|]; [|discriminate].
  cbn zeta in H.
  destruct (mem (or_default (lit "chatml") (CommandLine.template cl))
              template_choices) eqn:Hmem; [|discriminate].
  injection H as <-. cbn [Namespace.args Args.do_sample Args.template].
  apply mem_In in Hmem.
  split; [now destruct (CommandLine.do_sample cl)|]. split; [exact Hmem|]. split.
  - simpl in Hmem. destruct Hmem as [H|[H|[H|[H|[]]]]].
    + left. eexists. split; [reflexivity|]. rewrite <- H. simpl. auto.
    + left. eexists. split; [reflexivity|]. rewrite <- H. simpl. auto.
    + left. eexists. split; [reflexivity|]. rewrite <- H. simpl. auto.
    + right. now symmetry.
  - unfold console_call. cbn [Args.do_sample Args.template Args.max_new_tokens
      Args.temperature Args.top_p Args.repetition_penalty].
    match goal with
    | |- context [generate ?s ?p ?a ?b ?c ?d ?e ?t] =>
        destruct (generate_log s p a b c d e t w) as (l & Hl & _ & Hc)
    end.
    exists l. split; [exact Hl|]. rewrite Hc.
    destruct (Tokenizer.call _ _ true (Some 2048%nat)); constructor; [|constructor].
    cbn [generation_config GenerationConfig.do_sample].
    now destruct (CommandLine.do_sample cl).
Qed.

(** X17. The defaults are the same at both front ends: on a command line
    with only the model path, the console calls [generate] for a line
    exactly as the endpoint does for a payload with only that prompt; the
    mode is then interactive and the API address 127.0.0.1:8000. *)
Theorem same_defaults_at_both_front_ends (Ext : Type)
    (model_server : ModelServer.t Ext) (path user_input : str) :
  exists ns,
    parse_args (CommandLine.only path) = Some ns
    /\ console_call model_server (Namespace.args ns) user_input
       = request_call model_server
           (GenerationRequest.make (Payload.prompt_only user_input))
    /\ Namespace.mode ns = interactive
    /\ Namespace.host ns = lit "127.0.0.1"
    /\ Namespace.port ns = 8000%Z.
Proof. eexists. split; [reflexivity|]. repeat split. Qed.

Lemma command_line_sampling_and_template_witness :
  exists ns,
    parse_args
      {| CommandLine.model_path := lit "m";
         CommandLine.tokenizer_path := None;
         CommandLine.mode := Some (lit "api");
         CommandLine.max_new_tokens := Some 5%Z;
         CommandLine.temperature := None;
         CommandLine.top_p := None;
         CommandLine.repetition_penalty := None;
         CommandLine.do_sample := false;
         CommandLine.template := Some (lit "instruct");
         CommandLine.host := None;
         CommandLine.port := None |} = Some ns
    /\ Args.do_sample (Namespace.args ns) = true
    /\ In (Args.template (Namespace.args ns)) available_templates.
Proof.
  eexists. split; [reflexivity|].
  match goal with
  | |- Args.do_sample (Namespace.args ?ns) = true /\ _ =>
      destruct (@command_line_sampling_and_template nat (Toy.server [])
                  {| CommandLine.model_path := lit "m";
                     CommandLine.tokenizer_path := None;
                     CommandLine.mode := Some (lit "api");
                     CommandLine.max_new_tokens := Some 5%Z;
                     CommandLine.temperature := None;
                     CommandLine.top_p := None;
                     CommandLine.repetition_penalty := None;
                     CommandLine.do_sample := false;
                     CommandLine.template := Some (lit "instruct");
                     CommandLine.host := None;
                     CommandLine.port := None |} ns (lit "hi") Toy.start eq_refl)
        as (H1 & H2 & _)
  end.
  split; [exact H1|exact H2].
Defined.
